(** * solid.py: orders, authorizers and payment processors

    A shallow embedding of [solid.py].  Python objects live in a store;
    a method is a computation over that store which either returns,
    raises, or goes wrong on a reference that names no object. *)

From Stdlib Require Import ZArith Lia.
From stdpp Require Import base option strings pretty list gmap.

Local Open Scope string_scope.

(** ** The store *)

(** References to objects. *)
Abbreviation loc := nat.

(** The instance [__dict__] of an [Order].  The class body binds [items],
    [quantities], [prices] and [status] on the class, so a newly built
    instance has none of them; an attribute appears in the instance only
    once it is assigned through the instance ([order.status = "PAID"],
    or the [setUp] methods of test_solid.py, which assign fresh lists).
    A list held by an instance is owned by that instance alone. *)
Record OrderDict := mkOrderDict {
  d_items      : option (list string);
  d_quantities : option (list Z);
  d_prices     : option (list Z);
  d_status     : option string
}.

(** The classes deriving from [Authorizer]. *)
Inductive AuthClass := SMSAuthCls | NotARobotCls.

(** An authorizer object: its class and its instance [__dict__], which
    holds [authorized] once a method has assigned it. *)
Record AuthObj := mkAuthObj {
  a_class      : AuthClass;
  a_authorized : option bool
}.

(** The interpreter state.  [Order_items], [Order_quantities] and
    [Order_prices] are the three list objects created once by the class
    body of [Order] (lines 6-8); every instance without an attribute of
    its own reaches them. *)
Record World := mkWorld {
  Order_items      : list string;
  Order_quantities : list Z;
  Order_prices     : list Z;
  orders           : gmap loc OrderDict;
  authorizers      : gmap loc AuthObj;
  stdout           : list string
}.

(** Class attributes bound to immutable values; nothing rebinds them. *)
Definition Order_status : string := "open".
Definition SMSAuth_authorized : bool := false.
Definition NotARobot_authorized : bool := false.

(** The state just after the class definitions, before line 88. *)
Definition world0 : World := mkWorld [] [] [] ∅ ∅ [].

(** ** Computations *)

Inductive exn :=
| Exception (msg : string)
| IndexError
| AttributeError.

Inductive Outcome (A : Type) :=
| Val (a : A) (w : World)
| Exc (e : exn) (w : World)
| Wrong.
Arguments Val {A} a w.
Arguments Exc {A} e w.
Arguments Wrong {A}.

Definition M (A : Type) : Type := World → Outcome A.

Definition ret {A} (a : A) : M A := fun w => Val a w.

Definition bind {A B} (m : M A) (k : A → M B) : M B :=
  fun w => match m w with
           | Val a w' => k a w'
           | Exc e w' => Exc e w'
           | Wrong => Wrong
           end.

Definition raise {A} (e : exn) : M A := fun w => Exc e w.

Definition get : M World := fun w => Val w w.

Definition put (w : World) : M unit := fun _ => Val tt w.

#[global] Instance M_ret : MRet M := @ret.
#[global] Instance M_bind : MBind M := fun A B k m => bind m k.

(** [print(s)] *)
Definition print (s : string) : M unit :=
  fun w => Val tt (mkWorld (Order_items w) (Order_quantities w) (Order_prices w)
                           (orders w) (authorizers w) (stdout w ++ [s])).

(** ** Store updates *)

Definition set_Order_items (l : list string) (w : World) : World :=
  mkWorld l (Order_quantities w) (Order_prices w)
          (orders w) (authorizers w) (stdout w).

Definition set_Order_quantities (l : list Z) (w : World) : World :=
  mkWorld (Order_items w) l (Order_prices w)
          (orders w) (authorizers w) (stdout w).

Definition set_Order_prices (l : list Z) (w : World) : World :=
  mkWorld (Order_items w) (Order_quantities w) l
          (orders w) (authorizers w) (stdout w).

Definition set_order (o : loc) (d : OrderDict) (w : World) : World :=
  mkWorld (Order_items w) (Order_quantities w) (Order_prices w)
          (<[o := d]> (orders w)) (authorizers w) (stdout w).

Definition set_authorizer (a : loc) (x : AuthObj) (w : World) : World :=
  mkWorld (Order_items w) (Order_quantities w) (Order_prices w)
          (orders w) (<[a := x]> (authorizers w)) (stdout w).

Definition with_items (l : list string) (d : OrderDict) : OrderDict :=
  mkOrderDict (Some l) (d_quantities d) (d_prices d) (d_status d).

Definition with_quantities (l : list Z) (d : OrderDict) : OrderDict :=
  mkOrderDict (d_items d) (Some l) (d_prices d) (d_status d).

Definition with_prices (l : list Z) (d : OrderDict) : OrderDict :=
  mkOrderDict (d_items d) (d_quantities d) (Some l) (d_status d).

Definition with_status (s : string) (d : OrderDict) : OrderDict :=
  mkOrderDict (d_items d) (d_quantities d) (d_prices d) (Some s).

(** The instance dictionary behind a reference. *)
Definition order_dict (o : loc) : M OrderDict :=
  fun w => match orders w !! o with
           | Some d => Val d w
           | None => Wrong
           end.

Definition auth_obj (a : loc) : M AuthObj :=
  fun w => match authorizers w !! a with
           | Some x => Val x w
           | None => Wrong
           end.

(** ** class Order *)

Module Order.

(** [Order()]: a new instance with an empty [__dict__]. *)
Definition new : M loc :=
  fun w => let o := fresh (dom (orders w)) in
           Val o (set_order o (mkOrderDict None None None None) w).

(** [self.items], [self.quantities], [self.prices], [self.status]:
    the instance attribute when there is one, else the class one. *)
Definition items (self : loc) : M (list string) :=
  d ← order_dict self;
  w ← get;
  mret (default (Order_items w) (d_items d)).

Definition quantities (self : loc) : M (list Z) :=
  d ← order_dict self;
  w ← get;
  mret (default (Order_quantities w) (d_quantities d)).

Definition prices (self : loc) : M (list Z) :=
  d ← order_dict self;
  w ← get;
  mret (default (Order_prices w) (d_prices d)).

Definition status (self : loc) : M string :=
  d ← order_dict self;
  mret (default Order_status (d_status d)).

(** [self.items.append(name)] and its two siblings: the list that the
    attribute lookup finds is extended in place. *)
Definition items_append (self : loc) (name : string) : M unit :=
  d ← order_dict self;
  w ← get;
  match d_items d with
  | Some l => put (set_order self (with_items (l ++ [name]) d) w)
  | None => put (set_Order_items (Order_items w ++ [name]) w)
  end.

Definition quantities_append (self : loc) (quantity : Z) : M unit :=
  d ← order_dict self;
  w ← get;
  match d_quantities d with
  | Some l => put (set_order self (with_quantities (l ++ [quantity]) d) w)
  | None => put (set_Order_quantities (Order_quantities w ++ [quantity]) w)
  end.

Definition prices_append (self : loc) (price : Z) : M unit :=
  d ← order_dict self;
  w ← get;
  match d_prices d with
  | Some l => put (set_order self (with_prices (l ++ [price]) d) w)
  | None => put (set_Order_prices (Order_prices w ++ [price]) w)
  end.

(** [order.status = s] *)
Definition set_status (self : loc) (s : string) : M unit :=
  d ← order_dict self;
  w ← get;
  put (set_order self (with_status s d) w).

Definition add_item (self : loc) (name : string) (quantity price : Z) : M unit :=
  items_append self name;;
  quantities_append self quantity;;
  prices_append self price.

(** [l[i]] for [i >= 0]. *)
Definition getitem (l : list Z) (i : nat) : M Z :=
  match l !! i with
  | Some x => mret x
  | None => raise IndexError
  end.

(** The body of the [for] loop, run over the indices still to visit. *)
Fixpoint total_price_loop (self : loc) (range : list nat) (total : Z) : M Z :=
  match range with
  | [] => mret total
  | i :: range' =>
      qs ← quantities self;
      q ← getitem qs i;
      ps ← prices self;
      p ← getitem ps i;
      total_price_loop self range' (total + q * p)%Z
  end.

Definition total_price (self : loc) : M Z :=
  ps ← prices self;
  total_price_loop self (seq 0 (length ps)) 0%Z.

End Order.

(** ** class Authorizer and its subclasses *)

Definition set_authorized (self : loc) (b : bool) : M unit :=
  x ← auth_obj self;
  w ← get;
  put (set_authorizer self (mkAuthObj (a_class x) (Some b)) w).

Module SMSAuth.

(** [SMSAuth()] *)
Definition new : M loc :=
  fun w => let a := fresh (dom (authorizers w)) in
           Val a (set_authorizer a (mkAuthObj SMSAuthCls None) w).

Definition verify_code (self : loc) (code : string) : M unit :=
  print ("Verifying code: " ++ code);;
  set_authorized self true.

Definition is_authorized (self : loc) : M bool :=
  x ← auth_obj self;
  mret (default SMSAuth_authorized (a_authorized x)).

End SMSAuth.

Module NotARobot.

(** [NotARobot()] *)
Definition new : M loc :=
  fun w => let a := fresh (dom (authorizers w)) in
           Val a (set_authorizer a (mkAuthObj NotARobotCls None) w).

Definition not_a_robot (self : loc) : M unit :=
  print "Not a robot";;
  set_authorized self true.

Definition is_authorized (self : loc) : M bool :=
  x ← auth_obj self;
  mret (default NotARobot_authorized (a_authorized x)).

End NotARobot.

(** Method calls on a reference of static type [Authorizer]: the class of
    the object selects the method, and a class without it raises. *)
Module Authorizer.

Definition is_authorized (self : loc) : M bool :=
  x ← auth_obj self;
  match a_class x with
  | SMSAuthCls => SMSAuth.is_authorized self
  | NotARobotCls => NotARobot.is_authorized self
  end.

Definition verify_code (self : loc) (code : string) : M unit :=
  x ← auth_obj self;
  match a_class x with
  | SMSAuthCls => SMSAuth.verify_code self code
  | NotARobotCls => raise AttributeError
  end.

Definition not_a_robot (self : loc) : M unit :=
  x ← auth_obj self;
  match a_class x with
  | SMSAuthCls => raise AttributeError
  | NotARobotCls => NotARobot.not_a_robot self
  end.

End Authorizer.

(** ** class PaymentProcessor and its subclasses *)

Module CreditPaymentProcessor.

Record t := init { security_code : string }.

Definition pay (self : t) (order : loc) : M unit :=
  print "Processing credit payment type";;
  print ("Verifying security code: " ++ security_code self);;
  Order.set_status order "PAID".

End CreditPaymentProcessor.

Module DebitPaymentProcessor.

Record t := init { security_code : string; auth : loc }.

Definition pay (self : t) (order : loc) : M unit :=
  ok ← Authorizer.is_authorized (auth self);
  if negb ok then raise (Exception "Not Authorized")
  else
    print "Processing debit payment type";;
    print ("Verifying security code: " ++ security_code self);;
    Order.set_status order "PAID".

End DebitPaymentProcessor.

Module BitcoinPaymentProcessor.

Record t := init { wallet_id : string }.

Definition pay (self : t) (order : loc) : M unit :=
  print "Processing bitcoin payment type";;
  print ("Verifying security code: " ++ wallet_id self);;
  Order.set_status order "PAID".

End BitcoinPaymentProcessor.

(** A reference of static type [PaymentProcessor]. *)
Inductive PaymentProcessor :=
| Credit (p : CreditPaymentProcessor.t)
| Debit (p : DebitPaymentProcessor.t)
| Bitcoin (p : BitcoinPaymentProcessor.t).

Definition pay (self : PaymentProcessor) (order : loc) : M unit :=
  match self with
  | Credit p => CreditPaymentProcessor.pay p order
  | Debit p => DebitPaymentProcessor.pay p order
  | Bitcoin p => BitcoinPaymentProcessor.pay p order
  end.

(** ** Programs over the classes *)

(** One call of a method of the module, on references into the store. *)
Inductive op :=
| NewOrder
| AddItem (o : loc) (name : string) (quantity price : Z)
| TotalPrice (o : loc)
| NewSMSAuth
| NewNotARobot
| VerifyCode (a : loc) (code : string)
| NotARobotCall (a : loc)
| IsAuthorized (a : loc)
| Pay (p : PaymentProcessor) (o : loc).

Definition ignore {A} (m : M A) : M unit := _ ← m; mret tt.

Definition call (c : op) : M unit :=
  match c with
  | NewOrder => ignore Order.new
  | AddItem o name quantity price => Order.add_item o name quantity price
  | TotalPrice o => ignore (Order.total_price o)
  | NewSMSAuth => ignore SMSAuth.new
  | NewNotARobot => ignore NotARobot.new
  | VerifyCode a code => Authorizer.verify_code a code
  | NotARobotCall a => Authorizer.not_a_robot a
  | IsAuthorized a => ignore (Authorizer.is_authorized a)
  | Pay p o => pay p o
  end.

(** The store after a call, whether it returned or raised (a caller may
    catch the exception and go on, as [assertRaises] does). *)
Definition after {A} (r : Outcome A) : option World :=
  match r with
  | Val _ w => Some w
  | Exc _ w => Some w
  | Wrong => None
  end.

Fixpoint run (cs : list op) (w : World) : option World :=
  match cs with
  | [] => Some w
  | c :: cs' =>
      match after (call c w) with
      | Some w' => run cs' w'
      | None => None
      end
  end.

(** Lines 88-97 of solid.py, the statements run when the module loads. *)
Definition script : M Z :=
  order ← Order.new;
  Order.add_item order "Keyboard" 1 50;;
  Order.add_item order "SSD" 1 150;;
  Order.add_item order "USB Cable" 2 5;;
  total ← Order.total_price order;
  print (pretty total);;
  authorizer ← NotARobot.new;
  let processor := DebitPaymentProcessor.init "9876" authorizer in
  NotARobot.not_a_robot authorizer;;
  DebitPaymentProcessor.pay processor order;;
  mret total.

(** ** What a program observes of an order *)

Definition the {A} (r : Outcome A) : option A :=
  match r with
  | Val a _ => Some a
  | _ => None
  end.

Record OrderView := mkView {
  v_items : list string;
  v_quantities : list Z;
  v_prices : list Z;
  v_status : string
}.

Definition view (o : loc) : M OrderView :=
  i ← Order.items o;
  q ← Order.quantities o;
  p ← Order.prices o;
  s ← Order.status o;
  mret (mkView i q p s).

(** The three sequences of an order have one entry per line item. *)
Definition parallel (v : OrderView) : Prop :=
  length (v_items v) = length (v_quantities v) ∧
  length (v_quantities v) = length (v_prices v).

(** Sum of quantity times price over paired entries. *)
Fixpoint dot (qs ps : list Z) : Z :=
  match qs, ps with
  | q :: qs', p :: ps' => (q * p + dot qs' ps')%Z
  | _, _ => 0%Z
  end.

(** ** Reading the store without running a method *)

Local Open Scope list_scope.
Local Open Scope nat_scope.

Definition view_of (w : World) (d : OrderDict) : OrderView :=
  mkView (default (Order_items w) (d_items d))
         (default (Order_quantities w) (d_quantities d))
         (default (Order_prices w) (d_prices d))
         (default Order_status (d_status d)).

Definition authorized_of (x : AuthObj) : bool :=
  default false (a_authorized x).

(** Everything but the text printed so far. *)
Definition quiet (w : World) : World :=
  mkWorld (Order_items w) (Order_quantities w) (Order_prices w)
          (orders w) (authorizers w) [].

(** [add_item] called on an order other than [o]. *)
Definition adds_elsewhere (o : loc) (c : op) : Prop :=
  match c with
  | AddItem o' _ _ _ => o' ≠ o
  | _ => False
  end.

(** A line item as the arguments of one [add_item] call. *)
Record Item := mkItem { name : string; quantity : Z; price : Z }.

Fixpoint add_items (o : loc) (its : list Item) : M unit :=
  match its with
  | [] => mret tt
  | it :: its' =>
      Order.add_item o (name it) (quantity it) (price it);;
      add_items o its'
  end.

Definition subtotal (it : Item) : Z := (quantity it * price it)%Z.

Definition sum_subtotals (its : list Item) : Z :=
  foldr (fun it acc => (subtotal it + acc)%Z) 0%Z its.

(** The store once [order.status = "PAID"] has run after printing [out]. *)
Definition paid (o : loc) (d : OrderDict) (out : list string) (w : World) : World :=
  mkWorld (Order_items w) (Order_quantities w) (Order_prices w)
          (<[o := with_status "PAID" d]> (orders w)) (authorizers w)
          (stdout w ++ out).

(** How one call can change what an order shows. *)
Inductive change (o : loc) (c : op) (v v' : OrderView) : Prop :=
| unchanged :
    v' = v → change o c v v'
| item_added (n : string) (q p : Z) :
    c = AddItem o n q p →
    v' = mkView (v_items v ++ [n]) (v_quantities v ++ [q]) (v_prices v ++ [p])
                (v_status v) →
    change o c v v'
| status_paid (pr : PaymentProcessor) :
    c = Pay pr o →
    v' = mkView (v_items v) (v_quantities v) (v_prices v) "PAID" →
    change o c v v'
| added_elsewhere (o' : loc) (n : string) (q p : Z) :
    c = AddItem o' n q p → o' ≠ o →
    (v_items v' = v_items v ∨ v_items v' = v_items v ++ [n]) →
    (v_quantities v' = v_quantities v ∨ v_quantities v' = v_quantities v ++ [q]) →
    (v_prices v' = v_prices v ∨ v_prices v' = v_prices v ++ [p]) →
    v_status v' = v_status v →
    change o c v v'.

(** A store with one new order, one new [SMSAuth] at reference 0 and one
    new [NotARobot] at reference 1; and the same store once the
    [NotARobot] has been verified. *)
Definition shop : World :=
  set_authorizer 1 (mkAuthObj NotARobotCls None)
    (set_authorizer 0 (mkAuthObj SMSAuthCls None)
       (set_order 0 (mkOrderDict None None None None) world0)).

Definition shop_verified : World :=
  set_authorizer 1 (mkAuthObj NotARobotCls (Some true)) shop.

(** A store as the methods alone can build it: no instance holds a list
    of its own, and the three class lists are equally long. *)
Definition plain (w : World) : Prop :=
  (∀ o d, orders w !! o = Some d →
          d_items d = None ∧ d_quantities d = None ∧ d_prices d = None) ∧
  length (Order_items w) = length (Order_quantities w) ∧
  length (Order_quantities w) = length (Order_prices w).

(** Calls that return, calls that raise ([verify_code] on a [NotARobot],
    [pay] through the unverified [SMSAuth]) and calls on new objects. *)
Definition session : list op :=
  [VerifyCode 1 "123456"; NotARobotCall 0; NewNotARobot; IsAuthorized 2;
   Pay (Debit (DebitPaymentProcessor.init "9876" 0)) 0;
   Pay (Debit (DebitPaymentProcessor.init "9876" 1)) 0;
   NewOrder; AddItem 1 "SSD" 1 150; TotalPrice 0; NotARobotCall 1].

(** What the caller of a method gets back: the value or the exception. *)
Definition result {A} (r : Outcome A) : option (A + exn) :=
  match r with
  | Val a _ => Some (inl a)
  | Exc e _ => Some (inr e)
  | Wrong => None
  end.

(** What the loop of [total_price] comes to on given sequences: it visits
    the indices of [ps], pairing each price with the quantity at the same
    index. *)
Definition total_of (qs ps : list Z) : Z + exn :=
  if decide (length ps ≤ length qs) then inl (dot qs ps) else inr IndexError.

(** The call [c] invokes a verification method on the authorizer [a]. *)
Definition verifies (a : loc) (c : op) : Prop :=
  match c with
  | VerifyCode a' _ => a' = a
  | NotARobotCall a' => a' = a
  | _ => False
  end.

(** The instance holds all three of its lists itself. *)
Definition owns_lists (d : OrderDict) : Prop :=
  is_Some (d_items d) ∧ is_Some (d_quantities d) ∧ is_Some (d_prices d).

(** ** test_solid.py *)

(** [obj.items = l], [obj.quantities = l], [obj.prices = l]: assignment
    through an instance binds the attribute in that instance. *)
Definition setattr_items (o : loc) (l : list string) : M unit :=
  d ← order_dict o;
  w ← get;
  put (set_order o (with_items l d) w).

Definition setattr_quantities (o : loc) (l : list Z) : M unit :=
  d ← order_dict o;
  w ← get;
  put (set_order o (with_quantities l d) w).

Definition setattr_prices (o : loc) (l : list Z) : M unit :=
  d ← order_dict o;
  w ← get;
  put (set_order o (with_prices l d) w).

(** [obj.authorized], read on an authorizer from outside its class. *)
Definition getattr_authorized (a : loc) : M bool :=
  x ← auth_obj a;
  mret (default false (a_authorized x)).

(** How unittest reports a test method: it returned, an assertion
    failed, or another exception escaped.  [Broken] stands for a test
    that used a reference naming no object. *)
Inductive verdict := Pass | Fail | Error (e : exn) | Broken.

Definition Test : Type := World → verdict.

Definition passed : Test := fun _ => Pass.

(** A statement of a test method followed by the rest of the method. *)
Definition exec {A} (m : M A) (k : A → Test) : Test :=
  fun w => match m w with
           | Val a w' => k a w'
           | Exc e _ => Error e
           | Wrong => Broken
           end.

Definition assertEqual {A} `{EqDecision A} (first second : A) (k : Test) : Test :=
  if decide (first = second) then k else fun _ => Fail.

Definition assertTrue (expr : bool) (k : Test) : Test :=
  if expr then k else fun _ => Fail.

Definition assertFalse (expr : bool) (k : Test) : Test :=
  if expr then fun _ => Fail else k.

(** [with self.assertRaises(Exception) as context: body]: every exception
    of the model derives from [Exception]; a body that returns fails the
    test. *)
Definition assertRaises {A} (body : M A) (k : exn → Test) : Test :=
  fun w => match body w with
           | Exc e w' => k e w'
           | Val _ _ => Fail
           | Wrong => Broken
           end.

(** [str(e)].  The message of an [AttributeError] names the object and
    the attribute, which the model does not keep. *)
Definition str (e : exn) : option string :=
  match e with
  | Exception msg => Some msg
  | IndexError => Some "list index out of range"%string
  | AttributeError => None
  end.

Module TestOrder.

Definition setUp : M loc :=
  order ← Order.new;
  setattr_items order [];;
  setattr_quantities order [];;
  setattr_prices order [];;
  mret order.

Definition test_add_item_single (order : loc) : Test :=
  exec (Order.add_item order "Keyboard" 1 50) (fun _ =>
  exec (Order.items order) (fun items =>
  assertEqual items ["Keyboard"%string] (
  exec (Order.quantities order) (fun quantities =>
  assertEqual quantities [1%Z] (
  exec (Order.prices order) (fun prices =>
  assertEqual prices [50%Z] passed)))))).

Definition test_add_item_multiple (order : loc) : Test :=
  exec (Order.add_item order "Keyboard" 1 50) (fun _ =>
  exec (Order.add_item order "SSD" 1 150) (fun _ =>
  exec (Order.add_item order "USB Cable" 2 5) (fun _ =>
  exec (Order.items order) (fun items =>
  assertEqual items ["Keyboard"%string; "SSD"%string; "USB Cable"%string] (
  exec (Order.quantities order) (fun quantities =>
  assertEqual quantities [1; 1; 2]%Z (
  exec (Order.prices order) (fun prices =>
  assertEqual prices [50; 150; 5]%Z passed)))))))).

Definition test_total_price_empty (order : loc) : Test :=
  exec (Order.total_price order) (fun total =>
  assertEqual total 0%Z passed).

Definition test_total_price_single_item (order : loc) : Test :=
  exec (Order.add_item order "Keyboard" 1 50) (fun _ =>
  exec (Order.total_price order) (fun total =>
  assertEqual total 50%Z passed)).

Definition test_total_price_multiple_items (order : loc) : Test :=
  exec (Order.add_item order "Keyboard" 1 50) (fun _ =>
  exec (Order.add_item order "SSD" 1 150) (fun _ =>
  exec (Order.add_item order "USB Cable" 2 5) (fun _ =>
  exec (Order.total_price order) (fun total =>
  assertEqual total 210%Z passed)))).

Definition test_total_price_with_different_quantities (order : loc) : Test :=
  exec (Order.add_item order "Mouse" 3 25) (fun _ =>
  exec (Order.add_item order "Monitor" 2 200) (fun _ =>
  exec (Order.total_price order) (fun total =>
  assertEqual total 475%Z passed))).

End TestOrder.

Module TestSMSAuth.

Definition setUp : M loc :=
  sms_auth ← SMSAuth.new;
  set_authorized sms_auth false;;
  mret sms_auth.

Definition test_verify_code_sets_authorized_true (sms_auth : loc) : Test :=
  exec (getattr_authorized sms_auth) (fun before =>
  assertFalse before (
  exec (Authorizer.verify_code sms_auth "123456") (fun _ =>
  exec (getattr_authorized sms_auth) (fun now =>
  assertTrue now passed)))).

Definition test_is_authorized_returns_false_initially (sms_auth : loc) : Test :=
  exec (Authorizer.is_authorized sms_auth) (fun result =>
  assertFalse result passed).

Definition test_is_authorized_returns_true_after_verification (sms_auth : loc) : Test :=
  exec (Authorizer.verify_code sms_auth "123456") (fun _ =>
  exec (Authorizer.is_authorized sms_auth) (fun result =>
  assertTrue result passed)).

Definition test_is_authorized_returns_correct_status (sms_auth : loc) : Test :=
  exec (Authorizer.is_authorized sms_auth) (fun before =>
  assertFalse before (
  exec (Authorizer.verify_code sms_auth "999999") (fun _ =>
  exec (Authorizer.is_authorized sms_auth) (fun now =>
  assertTrue now passed)))).

End TestSMSAuth.

Module TestNotARobot.

Definition setUp : M loc :=
  not_a_robot ← NotARobot.new;
  set_authorized not_a_robot false;;
  mret not_a_robot.

Definition test_not_a_robot_sets_authorized_true (not_a_robot : loc) : Test :=
  exec (getattr_authorized not_a_robot) (fun before =>
  assertFalse before (
  exec (Authorizer.not_a_robot not_a_robot) (fun _ =>
  exec (getattr_authorized not_a_robot) (fun now =>
  assertTrue now passed)))).

Definition test_is_authorized_returns_false_initially (not_a_robot : loc) : Test :=
  exec (Authorizer.is_authorized not_a_robot) (fun result =>
  assertFalse result passed).

Definition test_is_authorized_returns_true_after_not_a_robot (not_a_robot : loc) : Test :=
  exec (Authorizer.not_a_robot not_a_robot) (fun _ =>
  exec (Authorizer.is_authorized not_a_robot) (fun result =>
  assertTrue result passed)).

Definition test_is_authorized_returns_correct_status (not_a_robot : loc) : Test :=
  exec (Authorizer.is_authorized not_a_robot) (fun before =>
  assertFalse before (
  exec (Authorizer.not_a_robot not_a_robot) (fun _ =>
  exec (Authorizer.is_authorized not_a_robot) (fun now =>
  assertTrue now passed)))).

End TestNotARobot.

(** The [setUp] shared, line for line, by the three payment test classes. *)
Definition payment_setUp : M loc :=
  order ← Order.new;
  setattr_items order [];;
  setattr_quantities order [];;
  setattr_prices order [];;
  Order.set_status order "open";;
  Order.add_item order "Test Item" 1 100;;
  mret order.

Module TestCreditPaymentProcessor.

Definition setUp : M loc := payment_setUp.

Definition test_pay_sets_order_status_to_paid (order : loc) : Test :=
  let processor := CreditPaymentProcessor.init "1234" in
  exec (CreditPaymentProcessor.pay processor order) (fun _ =>
  exec (Order.status order) (fun status =>
  assertEqual status "PAID"%string passed)).

Definition test_stores_security_code (order : loc) : Test :=
  let processor := CreditPaymentProcessor.init "5678" in
  assertEqual (CreditPaymentProcessor.security_code processor) "5678"%string passed.

End TestCreditPaymentProcessor.

Module TestDebitPaymentProcessor.

Definition setUp : M loc := payment_setUp.

Definition test_pay_with_authorized_sms_auth_succeeds (order : loc) : Test :=
  exec SMSAuth.new (fun auth =>
  exec (Authorizer.verify_code auth "1234") (fun _ =>
  let processor := DebitPaymentProcessor.init "9876" auth in
  exec (DebitPaymentProcessor.pay processor order) (fun _ =>
  exec (Order.status order) (fun status =>
  assertEqual status "PAID"%string passed)))).

Definition test_pay_without_authorization_raises_exception (order : loc) : Test :=
  exec SMSAuth.new (fun auth =>
  let processor := DebitPaymentProcessor.init "9876" auth in
  assertRaises (DebitPaymentProcessor.pay processor order) (fun exception =>
  assertEqual (str exception) (Some "Not Authorized"%string) passed)).

Definition test_works_with_not_a_robot_authorizer (order : loc) : Test :=
  exec NotARobot.new (fun auth =>
  exec (Authorizer.not_a_robot auth) (fun _ =>
  let processor := DebitPaymentProcessor.init "9876" auth in
  exec (DebitPaymentProcessor.pay processor order) (fun _ =>
  exec (Order.status order) (fun status =>
  assertEqual status "PAID"%string passed)))).

Definition test_not_a_robot_unauthorized_raises_exception (order : loc) : Test :=
  exec NotARobot.new (fun auth =>
  let processor := DebitPaymentProcessor.init "9876" auth in
  assertRaises (DebitPaymentProcessor.pay processor order) (fun exception =>
  assertEqual (str exception) (Some "Not Authorized"%string) passed)).

End TestDebitPaymentProcessor.

Module TestBitcoinPaymentProcessor.

Definition setUp : M loc := payment_setUp.

Definition test_pay_sets_order_status_to_paid (order : loc) : Test :=
  let processor := BitcoinPaymentProcessor.init "wallet123" in
  exec (BitcoinPaymentProcessor.pay processor order) (fun _ =>
  exec (Order.status order) (fun status =>
  assertEqual status "PAID"%string passed)).

Definition test_stores_wallet_id (order : loc) : Test :=
  let processor := BitcoinPaymentProcessor.init "my_wallet_abc" in
  assertEqual (BitcoinPaymentProcessor.wallet_id processor) "my_wallet_abc"%string passed.

End TestBitcoinPaymentProcessor.

(** A test method run the way unittest runs it: after [setUp], on the
    fixture that [setUp] made. *)
Definition run_test (setUp : M loc) (test : loc → Test) : Test :=
  exec setUp test.

(** Stores for the examples: order 0 reads the class lists and order 1
    holds its own; an order with a price and no quantity, which only
    assignment from outside the class can produce; and a few calls on two
    orders. *)
Definition two_orders : World :=
  set_order 1 (mkOrderDict (Some []) (Some []) (Some []) None) shop.

Definition lopsided : World :=
  set_order 0 (mkOrderDict None (Some []) (Some [50%Z]) None) world0.

Definition two_customers : list op :=
  [NewOrder; AddItem 0 "Keyboard" 1 50; NewOrder; AddItem 1 "SSD" 1 150].

Definition others_verified : list op :=
  [NotARobotCall 1; NewSMSAuth; VerifyCode 2 "123456"; VerifyCode 1 "123456";
   Pay (Credit (CreditPaymentProcessor.init "1234")) 0;
   Pay (Debit (DebitPaymentProcessor.init "9876" 0)) 0;
   AddItem 0 "SSD" 1 150; IsAuthorized 0].

(** * Proofs *)

Example script_runs :
  script world0
  = Val 210%Z (mkWorld ["Keyboard"; "SSD"; "USB Cable"] [1; 1; 2]%Z [50; 150; 5]%Z
                 {[ 0 := mkOrderDict None None None (Some "PAID") ]}
                 {[ 0 := mkAuthObj NotARobotCls (Some true) ]}
                 ["210"; "Not a robot"; "Processing debit payment type";
                  "Verifying security code: 9876"]).
Proof. vm_compute. reflexivity. Qed.

Ltac unfold_M :=
  unfold mbind, M_bind, bind, mret, M_ret, ret, get, put, raise,
    order_dict, auth_obj in *.

Lemma mbind_M {A B} (m : M A) (k : A → M B) (w : World) :
  (m ≫= k) w = match m w with
               | Val a w' => k a w'
               | Exc e w' => Exc e w'
               | Wrong => Wrong
               end.
Proof. reflexivity. Qed.

Lemma view_eq (o : loc) (w : World) :
  view o w = match orders w !! o with
             | Some d => Val (view_of w d) w
             | None => Wrong
             end.
Proof.
  unfold view, Order.items, Order.quantities, Order.prices, Order.status.
  unfold_M. destruct (orders w !! o) eqn:E; simpl; rewrite ?E; simpl;
    rewrite ?E; reflexivity.
Qed.

Lemma view_Val (o : loc) (w w' : World) (v : OrderView) :
  view o w = Val v w' →
  w' = w ∧ ∃ d, orders w !! o = Some d ∧ v = view_of w d.
Proof.
  rewrite view_eq. destruct (orders w !! o) as [d|]; [|discriminate].
  intros [= <- <-]. eauto.
Qed.

Lemma add_item_effect (o : loc) (n : string) (q p : Z) (w : World) (d : OrderDict) :
  orders w !! o = Some d →
  ∃ w' d',
    Order.add_item o n q p w = Val tt w' ∧
    orders w' !! o = Some d' ∧
    view_of w' d' = mkView (v_items (view_of w d) ++ [n])
                           (v_quantities (view_of w d) ++ [q])
                           (v_prices (view_of w d) ++ [p])
                           (v_status (view_of w d)) ∧
    authorizers w' = authorizers w ∧
    stdout w' = stdout w.
Proof.
  intros Hd. unfold Order.add_item, Order.items_append,
    Order.quantities_append, Order.prices_append.
  unfold_M. rewrite Hd.
  destruct d as [[i|] [qs|] [ps|] s]; simpl;
    repeat (rewrite ?Hd, ?lookup_insert_eq; simpl);
    eexists _, _; (split; [reflexivity|]); simpl;
    rewrite ?lookup_insert_eq, ?Hd; (split; [reflexivity|]);
    unfold view_of; simpl; auto.
Qed.

Lemma add_items_effect (o : loc) (its : list Item) :
  ∀ (w : World) (d : OrderDict),
    orders w !! o = Some d →
    ∃ w' d',
      add_items o its w = Val tt w' ∧
      orders w' !! o = Some d' ∧
      view_of w' d' = mkView (v_items (view_of w d) ++ map name its)
                             (v_quantities (view_of w d) ++ map quantity its)
                             (v_prices (view_of w d) ++ map price its)
                             (v_status (view_of w d)).
Proof.
  induction its as [|it its IH]; intros w d Hd.
  - exists w, d. split; [reflexivity|]. split; [exact Hd|].
    unfold view_of. simpl. by rewrite !app_nil_r.
  - destruct (add_item_effect o (name it) (quantity it) (price it) w d Hd)
      as (w1 & d1 & Hrun & Hd1 & Hv1 & _ & _).
    destruct (IH w1 d1 Hd1) as (w2 & d2 & Hrun2 & Hd2 & Hv2).
    exists w2, d2. split; [|split; [exact Hd2|]].
    + simpl. unfold_M. rewrite Hrun. exact Hrun2.
    + rewrite Hv2, Hv1. simpl. by rewrite <- !app_assoc.
Qed.

(** One turn of the loop. *)
Lemma total_price_loop_step (o : loc) (w : World) (d : OrderDict)
    (i : nat) (range : list nat) (total : Z) :
  orders w !! o = Some d →
  Order.total_price_loop o (i :: range) total w
  = match v_quantities (view_of w d) !! i with
    | None => Exc IndexError w
    | Some q =>
        match v_prices (view_of w d) !! i with
        | None => Exc IndexError w
        | Some p => Order.total_price_loop o range (total + q * p)%Z w
        end
    end.
Proof.
  intros Hd. cbn [Order.total_price_loop view_of v_quantities v_prices].
  unfold Order.quantities, Order.prices, Order.getitem. unfold_M.
  rewrite Hd. cbn beta iota.
  destruct (default (Order_quantities w) (d_quantities d) !! i) as [q|];
    [|reflexivity].
  cbn beta iota. rewrite Hd. cbn beta iota.
  destruct (default (Order_prices w) (d_prices d) !! i) as [p|]; reflexivity.
Qed.

(** The loop from index [length ps0] on adds up the remaining pairs. *)
Lemma total_price_loop_dot (o : loc) (w : World) (d : OrderDict) :
  orders w !! o = Some d →
  ∀ (ps1 qs1 qs0 ps0 : list Z) (total : Z),
    v_quantities (view_of w d) = qs0 ++ qs1 →
    v_prices (view_of w d) = ps0 ++ ps1 →
    length qs0 = length ps0 →
    length ps1 ≤ length qs1 →
    Order.total_price_loop o (seq (length ps0) (length ps1)) total w
    = Val (total + dot qs1 ps1)%Z w.
Proof.
  intros Hd. induction ps1 as [|p ps1 IH]; intros qs1 qs0 ps0 total Hq Hp Hl Hle.
  - simpl. unfold_M. destruct qs1; simpl; f_equal; lia.
  - destruct qs1 as [|q qs1]; [simpl in Hle; lia|].
    cbn [length seq]. rewrite (total_price_loop_step o w d) by exact Hd.
    rewrite Hq, Hp. rewrite <- Hl at 1.
    rewrite !list_lookup_middle by done.
    replace (S (length ps0)) with (length (ps0 ++ [p]))
      by (rewrite length_app; simpl; lia).
    rewrite (IH qs1 (qs0 ++ [q]) (ps0 ++ [p]) (total + q * p)%Z).
    + simpl. f_equal. lia.
    + by rewrite <- app_assoc.
    + by rewrite <- app_assoc.
    + rewrite !length_app. simpl. lia.
    + simpl in Hle. lia.
Qed.

Lemma total_price_dot (o : loc) (w : World) (d : OrderDict) :
  orders w !! o = Some d →
  length (v_prices (view_of w d)) ≤ length (v_quantities (view_of w d)) →
  Order.total_price o w
  = Val (dot (v_quantities (view_of w d)) (v_prices (view_of w d))) w.
Proof.
  intros Hd Hle. unfold Order.total_price, Order.prices. unfold_M.
  rewrite Hd. cbn beta iota.
  exact (total_price_loop_dot o w d Hd (v_prices (view_of w d))
           (v_quantities (view_of w d)) [] [] 0%Z eq_refl eq_refl eq_refl Hle).
Qed.

(** With fewer quantities than prices the loop indexes past the end. *)
Lemma total_price_loop_IndexError (o : loc) (w : World) (d : OrderDict) :
  orders w !! o = Some d →
  ∀ (n k : nat) (total : Z),
    k ≤ length (v_quantities (view_of w d)) →
    length (v_quantities (view_of w d)) < k + n →
    k + n ≤ length (v_prices (view_of w d)) →
    Order.total_price_loop o (seq k n) total w = Exc IndexError w.
Proof.
  intros Hd. induction n as [|n IH]; intros k total Hk Hlt Hle; [lia|].
  cbn [seq]. rewrite (total_price_loop_step o w d) by exact Hd.
  destruct (v_quantities (view_of w d) !! k) as [q|] eqn:Eq; [|reflexivity].
  destruct (v_prices (view_of w d) !! k) as [p|] eqn:Ep.
  - apply lookup_lt_Some in Eq. apply IH; lia.
  - apply lookup_ge_None in Ep. lia.
Qed.

Lemma total_price_IndexError (o : loc) (w : World) (d : OrderDict) :
  orders w !! o = Some d →
  length (v_quantities (view_of w d)) < length (v_prices (view_of w d)) →
  Order.total_price o w = Exc IndexError w.
Proof.
  intros Hd Hlt. unfold Order.total_price, Order.prices. unfold_M.
  rewrite Hd. cbn beta iota.
  apply (total_price_loop_IndexError o w d Hd); cbn [view_of v_prices] in *; lia.
Qed.

Lemma dot_app (qs ps qs' ps' : list Z) :
  length qs = length ps →
  dot (qs ++ qs') (ps ++ ps') = (dot qs ps + dot qs' ps')%Z.
Proof.
  revert ps. induction qs as [|q qs IH]; intros [|p ps] Hl;
    simpl in *; try lia.
  rewrite IH by lia. lia.
Qed.

Lemma dot_items (its : list Item) :
  dot (map quantity its) (map price its) = sum_subtotals its.
Proof.
  induction its as [|it its IH]; simpl; [reflexivity|].
  rewrite IH. reflexivity.
Qed.

(** *** Authorizers *)

Lemma SMSAuth_is_authorized_eq (a : loc) (w : World) :
  SMSAuth.is_authorized a w
  = match authorizers w !! a with
    | Some x => Val (authorized_of x) w
    | None => Wrong
    end.
Proof.
  unfold SMSAuth.is_authorized. unfold_M.
  destruct (authorizers w !! a); reflexivity.
Qed.

Lemma NotARobot_is_authorized_eq (a : loc) (w : World) :
  NotARobot.is_authorized a w
  = match authorizers w !! a with
    | Some x => Val (authorized_of x) w
    | None => Wrong
    end.
Proof.
  unfold NotARobot.is_authorized. unfold_M.
  destruct (authorizers w !! a); reflexivity.
Qed.

Lemma is_authorized_eq (a : loc) (w : World) :
  Authorizer.is_authorized a w
  = match authorizers w !! a with
    | Some x => Val (authorized_of x) w
    | None => Wrong
    end.
Proof.
  unfold Authorizer.is_authorized. unfold_M.
  destruct (authorizers w !! a) as [x|] eqn:E; [|reflexivity].
  destruct (a_class x);
    [rewrite SMSAuth_is_authorized_eq | rewrite NotARobot_is_authorized_eq];
    by rewrite E.
Qed.

Lemma is_authorized_Val (a : loc) (w w' : World) (b : bool) :
  Authorizer.is_authorized a w = Val b w' →
  w' = w ∧ ∃ x, authorizers w !! a = Some x ∧ authorized_of x = b.
Proof.
  rewrite is_authorized_eq. destruct (authorizers w !! a) as [x|]; [|discriminate].
  intros [= <- <-]. eauto.
Qed.

Lemma set_authorized_eq (a : loc) (b : bool) (w : World) :
  set_authorized a b w
  = match authorizers w !! a with
    | Some x => Val tt (set_authorizer a (mkAuthObj (a_class x) (Some b)) w)
    | None => Wrong
    end.
Proof.
  unfold set_authorized. unfold_M.
  destruct (authorizers w !! a); reflexivity.
Qed.

Lemma verify_code_eq (a : loc) (code : string) (w : World) :
  SMSAuth.verify_code a code w
  = match authorizers w !! a with
    | Some x =>
        Val tt (mkWorld (Order_items w) (Order_quantities w) (Order_prices w)
                  (orders w) (<[a := mkAuthObj (a_class x) (Some true)]> (authorizers w))
                  (stdout w ++ [("Verifying code: " ++ code)%string]))
    | None => Wrong
    end.
Proof.
  unfold SMSAuth.verify_code. unfold_M. unfold print.
  rewrite set_authorized_eq. simpl.
  destruct (authorizers w !! a); reflexivity.
Qed.

Lemma not_a_robot_eq (a : loc) (w : World) :
  NotARobot.not_a_robot a w
  = match authorizers w !! a with
    | Some x =>
        Val tt (mkWorld (Order_items w) (Order_quantities w) (Order_prices w)
                  (orders w) (<[a := mkAuthObj (a_class x) (Some true)]> (authorizers w))
                  (stdout w ++ ["Not a robot"%string]))
    | None => Wrong
    end.
Proof.
  unfold NotARobot.not_a_robot. unfold_M. unfold print.
  rewrite set_authorized_eq. simpl.
  destruct (authorizers w !! a); reflexivity.
Qed.

(** *** Payment *)

Lemma Credit_pay_eq (p : CreditPaymentProcessor.t) (o : loc) (w : World) :
  CreditPaymentProcessor.pay p o w
  = match orders w !! o with
    | Some d =>
        Val tt (paid o d ["Processing credit payment type"%string;
                          ("Verifying security code: "
                             ++ CreditPaymentProcessor.security_code p)%string] w)
    | None => Wrong
    end.
Proof.
  unfold CreditPaymentProcessor.pay, Order.set_status, print. unfold_M. simpl.
  destruct (orders w !! o); [|reflexivity].
  unfold paid, set_order. simpl. by rewrite <- app_assoc.
Qed.

Lemma Bitcoin_pay_eq (p : BitcoinPaymentProcessor.t) (o : loc) (w : World) :
  BitcoinPaymentProcessor.pay p o w
  = match orders w !! o with
    | Some d =>
        Val tt (paid o d ["Processing bitcoin payment type"%string;
                          ("Verifying security code: "
                             ++ BitcoinPaymentProcessor.wallet_id p)%string] w)
    | None => Wrong
    end.
Proof.
  unfold BitcoinPaymentProcessor.pay, Order.set_status, print. unfold_M. simpl.
  destruct (orders w !! o); [|reflexivity].
  unfold paid, set_order. simpl. by rewrite <- app_assoc.
Qed.

Lemma Debit_pay_eq (p : DebitPaymentProcessor.t) (o : loc) (w : World) :
  DebitPaymentProcessor.pay p o w
  = match authorizers w !! DebitPaymentProcessor.auth p with
    | None => Wrong
    | Some x =>
        if authorized_of x then
          match orders w !! o with
          | Some d =>
              Val tt (paid o d ["Processing debit payment type"%string;
                                ("Verifying security code: "
                                   ++ DebitPaymentProcessor.security_code p)%string] w)
          | None => Wrong
          end
        else Exc (Exception "Not Authorized") w
    end.
Proof.
  unfold DebitPaymentProcessor.pay.
  rewrite mbind_M, is_authorized_eq.
  destruct (authorizers w !! DebitPaymentProcessor.auth p) as [x|]; [|reflexivity].
  destruct (authorized_of x); [|reflexivity]. simpl.
  unfold Order.set_status, print. unfold_M. simpl.
  destruct (orders w !! o); [|reflexivity].
  unfold paid, set_order. simpl. by rewrite <- app_assoc.
Qed.

(** *** One call at a time *)

Lemma add_item_Wrong (o : loc) (n : string) (q p : Z) (w : World) :
  orders w !! o = None → Order.add_item o n q p w = Wrong.
Proof.
  intros Hd. unfold Order.add_item, Order.items_append. unfold_M.
  by rewrite Hd.
Qed.

Lemma total_price_loop_after (o : loc) (w : World) (range : list nat) :
  ∀ (total : Z) (w' : World),
    after (Order.total_price_loop o range total w) = Some w' → w' = w.
Proof.
  induction range as [|i range IH]; intros total w' H.
  - simpl in H. by injection H.
  - destruct (orders w !! o) as [d|] eqn:Hd.
    + rewrite (total_price_loop_step o w d) in H by exact Hd.
      destruct (v_quantities (view_of w d) !! i); [|by injection H].
      destruct (v_prices (view_of w d) !! i); [|by injection H].
      by apply IH in H.
    + cbn [Order.total_price_loop] in H. unfold Order.quantities in H.
      unfold_M. rewrite Hd in H. discriminate.
Qed.

Lemma total_price_after (o : loc) (w w' : World) :
  after (Order.total_price o w) = Some w' → w' = w.
Proof.
  unfold Order.total_price. rewrite mbind_M. unfold Order.prices. unfold_M.
  destruct (orders w !! o); [|discriminate]. cbn beta iota.
  apply total_price_loop_after.
Qed.

Lemma after_ignore {A} (m : M A) (w : World) :
  after (ignore m w) = after (m w).
Proof. unfold ignore. rewrite mbind_M. by destruct (m w). Qed.

(** No call removes an authorizer, changes its class, or withdraws an
    authorization. *)
Lemma call_authorizers (c : op) (w w' : World) (a : loc) (x : AuthObj) :
  after (call c w) = Some w' →
  authorizers w !! a = Some x →
  ∃ x', authorizers w' !! a = Some x' ∧
        a_class x' = a_class x ∧
        (authorized_of x = true → authorized_of x' = true).
Proof.
  intros H Ha.
  assert (Hsame : authorizers w' = authorizers w → ∃ x',
            authorizers w' !! a = Some x' ∧ a_class x' = a_class x ∧
            (authorized_of x = true → authorized_of x' = true))
    by (intros ->; eauto).
  assert (Hset : ∀ a' x0, authorizers w !! a' = Some x0 →
            authorizers w' = <[a' := mkAuthObj (a_class x0) (Some true)]> (authorizers w) →
            ∃ x', authorizers w' !! a = Some x' ∧ a_class x' = a_class x ∧
                  (authorized_of x = true → authorized_of x' = true)).
  { intros a' x0 Ha' ->. destruct (decide (a' = a)) as [->|Hne].
    - rewrite lookup_insert_eq. eexists. split; [reflexivity|].
      split; [simpl; congruence | reflexivity].
    - rewrite lookup_insert_ne by done. eauto. }
  assert (Hnew : ∀ x0,
            authorizers w' = <[fresh (dom (authorizers w)) := x0]> (authorizers w) →
            ∃ x', authorizers w' !! a = Some x' ∧ a_class x' = a_class x ∧
                  (authorized_of x = true → authorized_of x' = true)).
  { intros x0 ->. rewrite lookup_insert_ne; [eauto|].
    intros E. apply (is_fresh (dom (authorizers w))).
    rewrite E. apply elem_of_dom. eauto. }
  destruct c as [|o n q p|o| | |a' code|a'|a'|pr o]; cbn [call] in H;
    rewrite ?after_ignore in H.
  - injection H as <-. by apply Hsame.
  - destruct (orders w !! o) as [d|] eqn:Hd.
    + destruct (add_item_effect o n q p w d Hd) as (w1 & d1 & Hr & _ & _ & Hau & _).
      rewrite Hr in H. injection H as <-. by apply Hsame.
    + by rewrite add_item_Wrong in H.
  - apply total_price_after in H as ->. by apply Hsame.
  - injection H as <-. by eapply Hnew.
  - injection H as <-. by eapply Hnew.
  - unfold Authorizer.verify_code in H. rewrite mbind_M in H. unfold_M.
    destruct (authorizers w !! a') as [x0|] eqn:Ha'; [|discriminate].
    cbn beta iota in H. destruct (a_class x0).
    + rewrite verify_code_eq, Ha' in H. injection H as <-.
      by apply (Hset a' x0 Ha').
    + injection H as <-. by apply Hsame.
  - unfold Authorizer.not_a_robot in H. rewrite mbind_M in H. unfold_M.
    destruct (authorizers w !! a') as [x0|] eqn:Ha'; [|discriminate].
    cbn beta iota in H. destruct (a_class x0).
    + injection H as <-. by apply Hsame.
    + rewrite not_a_robot_eq, Ha' in H. injection H as <-.
      by apply (Hset a' x0 Ha').
  - rewrite is_authorized_eq in H.
    destruct (authorizers w !! a'); [|discriminate].
    injection H as <-. by apply Hsame.
  - destruct pr as [pc|pd|pb]; cbn [pay] in H.
    + rewrite Credit_pay_eq in H. destruct (orders w !! o); [|discriminate].
      injection H as <-. by apply Hsame.
    + rewrite Debit_pay_eq in H.
      destruct (authorizers w !! DebitPaymentProcessor.auth pd) as [x0|];
        [|discriminate].
      destruct (authorized_of x0).
      * destruct (orders w !! o); [|discriminate].
        injection H as <-. by apply Hsame.
      * injection H as <-. by apply Hsame.
    + rewrite Bitcoin_pay_eq in H. destruct (orders w !! o); [|discriminate].
      injection H as <-. by apply Hsame.
Qed.

(** What [add_item] on one order does to the rest of the store: each class
    list is either left alone or extended by the new entry, and no other
    instance dictionary is written. *)
Lemma add_item_frame (o' : loc) (n : string) (q p : Z) (w : World) (d' : OrderDict) :
  orders w !! o' = Some d' →
  ∃ w',
    Order.add_item o' n q p w = Val tt w' ∧
    (∀ o, o ≠ o' → orders w' !! o = orders w !! o) ∧
    (Order_items w' = Order_items w ∨ Order_items w' = Order_items w ++ [n]) ∧
    (Order_quantities w' = Order_quantities w ∨
     Order_quantities w' = Order_quantities w ++ [q]) ∧
    (Order_prices w' = Order_prices w ∨ Order_prices w' = Order_prices w ++ [p]).
Proof.
  intros Hd. unfold Order.add_item, Order.items_append,
    Order.quantities_append, Order.prices_append.
  unfold_M. rewrite Hd.
  destruct d' as [[i|] [qs|] [ps|] s]; simpl;
    repeat (rewrite ?Hd, ?lookup_insert_eq; simpl);
    eexists; (split; [reflexivity|]); simpl;
    (split; [intros o Hne; by rewrite ?lookup_insert_ne by done|]);
    auto.
Qed.

Lemma view_of_same (w w' : World) (d : OrderDict) :
  Order_items w' = Order_items w →
  Order_quantities w' = Order_quantities w →
  Order_prices w' = Order_prices w →
  view_of w' d = view_of w d.
Proof. unfold view_of. by intros -> -> ->. Qed.

Lemma call_orders (c : op) (w w' : World) (o : loc) (d : OrderDict) :
  after (call c w) = Some w' →
  orders w !! o = Some d →
  ∃ d', orders w' !! o = Some d' ∧ change o c (view_of w d) (view_of w' d').
Proof.
  intros H Ho.
  assert (Hsame : orders w' = orders w → Order_items w' = Order_items w →
            Order_quantities w' = Order_quantities w →
            Order_prices w' = Order_prices w →
            ∃ d', orders w' !! o = Some d' ∧
                  change o c (view_of w d) (view_of w' d')).
  { intros E Ei Eq Ep. exists d. rewrite E. split; [exact Ho|].
    apply unchanged. by apply view_of_same. }
  assert (Hpaid : ∀ pr o' d0 out, c = Pay pr o' → orders w !! o' = Some d0 →
            w' = paid o' d0 out w →
            ∃ d', orders w' !! o = Some d' ∧
                  change o c (view_of w d) (view_of w' d')).
  { intros pr o' d0 out -> Ho' ->. destruct (decide (o' = o)) as [->|Hne].
    - exists (with_status "PAID" d0). cbn [paid orders].
      rewrite lookup_insert_eq. split; [reflexivity|].
      apply (status_paid _ _ _ _ pr); [reflexivity|].
      rewrite Ho in Ho'. by injection Ho' as ->.
    - exists d. cbn [paid orders]. rewrite lookup_insert_ne by done.
      split; [exact Ho|]. by apply unchanged. }
  destruct c as [|o' n q p|o'| | |a' code|a'|a'|pr o']; cbn [call] in H;
    rewrite ?after_ignore in H.
  - injection H as <-. exists d. cbn [set_order orders].
    rewrite lookup_insert_ne.
    + split; [exact Ho|]. by apply unchanged.
    + intros E. apply (is_fresh (dom (orders w))).
      rewrite E. apply elem_of_dom. eauto.
  - destruct (decide (o' = o)) as [->|Hne].
    + destruct (add_item_effect o n q p w d Ho) as (w1 & d1 & Hr & Hd1 & Hv & _).
      rewrite Hr in H. injection H as <-. exists d1. split; [exact Hd1|].
      by apply (item_added _ _ _ _ n q p).
    + destruct (orders w !! o') as [d0|] eqn:Ho';
        [|by rewrite add_item_Wrong in H].
      destruct (add_item_frame o' n q p w d0 Ho') as (w1 & Hr & Hfr & Hi & Hq & Hp).
      rewrite Hr in H. injection H as <-. exists d.
      rewrite Hfr by done. split; [exact Ho|].
      apply (added_elsewhere _ _ _ _ o' n q p); [reflexivity|exact Hne|..];
        unfold view_of; cbn [v_items v_quantities v_prices v_status].
      * destruct (d_items d); [by left|exact Hi].
      * destruct (d_quantities d); [by left|exact Hq].
      * destruct (d_prices d); [by left|exact Hp].
      * reflexivity.
  - apply total_price_after in H as ->. by apply Hsame.
  - injection H as <-. by apply Hsame.
  - injection H as <-. by apply Hsame.
  - unfold Authorizer.verify_code in H. rewrite mbind_M in H. unfold_M.
    destruct (authorizers w !! a') as [x0|] eqn:Ha'; [|discriminate].
    cbn beta iota in H. destruct (a_class x0).
    + rewrite verify_code_eq, Ha' in H. injection H as <-. by apply Hsame.
    + injection H as <-. by apply Hsame.
  - unfold Authorizer.not_a_robot in H. rewrite mbind_M in H. unfold_M.
    destruct (authorizers w !! a') as [x0|] eqn:Ha'; [|discriminate].
    cbn beta iota in H. destruct (a_class x0).
    + injection H as <-. by apply Hsame.
    + rewrite not_a_robot_eq, Ha' in H. injection H as <-. by apply Hsame.
  - rewrite is_authorized_eq in H.
    destruct (authorizers w !! a'); [|discriminate].
    injection H as <-. by apply Hsame.
  - destruct pr as [pc|pd|pb]; cbn [pay] in H.
    + rewrite Credit_pay_eq in H.
      destruct (orders w !! o') as [d0|] eqn:Ho'; [|discriminate].
      injection H as <-. by eapply Hpaid.
    + rewrite Debit_pay_eq in H.
      destruct (authorizers w !! DebitPaymentProcessor.auth pd) as [x0|];
        [|discriminate].
      destruct (authorized_of x0).
      * destruct (orders w !! o') as [d0|] eqn:Ho'; [|discriminate].
        injection H as <-. by eapply Hpaid.
      * injection H as <-. by apply Hsame.
    + rewrite Bitcoin_pay_eq in H.
      destruct (orders w !! o') as [d0|] eqn:Ho'; [|discriminate].
      injection H as <-. by eapply Hpaid.
Qed.

(** *** Stores built by method calls alone *)

Lemma add_item_plain (o : loc) (n : string) (q p : Z) (w : World) (d : OrderDict) :
  orders w !! o = Some d →
  d_items d = None → d_quantities d = None → d_prices d = None →
  Order.add_item o n q p w
  = Val tt (mkWorld (Order_items w ++ [n]) (Order_quantities w ++ [q])
                    (Order_prices w ++ [p]) (orders w) (authorizers w) (stdout w)).
Proof.
  intros Hd Hi Hq Hp. unfold Order.add_item, Order.items_append,
    Order.quantities_append, Order.prices_append.
  unfold_M. rewrite Hd, Hi. cbn. rewrite Hd, Hq. cbn. by rewrite Hd, Hp.
Qed.

Lemma call_plain (c : op) (w w' : World) :
  plain w → after (call c w) = Some w' → plain w'.
Proof.
  intros (Hown & Hiq & Hqp) H.
  assert (Hsame : orders w' = orders w → Order_items w' = Order_items w →
            Order_quantities w' = Order_quantities w →
            Order_prices w' = Order_prices w → plain w').
  { intros Eo Ei Eq Ep. unfold plain. by rewrite Eo, Ei, Eq, Ep. }
  assert (Hpaid : ∀ o d out, orders w !! o = Some d → plain (paid o d out w)).
  { intros o d out Hd. split; [|by split].
    intros o' d'. cbn [paid orders]. destruct (decide (o = o')) as [<-|Hne].
    - rewrite lookup_insert_eq. intros [= <-]. cbn. by apply (Hown o).
    - rewrite lookup_insert_ne by done. apply Hown. }
  destruct c as [|o n q p|o| | |a' code|a'|a'|pr o]; cbn [call] in H;
    rewrite ?after_ignore in H.
  - injection H as <-. split; [|by split].
    intros o d. cbn [set_order orders].
    destruct (decide (fresh (dom (orders w)) = o)) as [<-|Hne].
    + rewrite lookup_insert_eq. by intros [= <-].
    + rewrite lookup_insert_ne by done. apply Hown.
  - destruct (orders w !! o) as [d|] eqn:Hd; [|by rewrite add_item_Wrong in H].
    destruct (Hown o d Hd) as (Hi & Hq & Hp).
    rewrite (add_item_plain o n q p w d Hd Hi Hq Hp) in H. injection H as <-.
    split; [exact Hown|]. cbn. rewrite !length_app. cbn. lia.
  - apply total_price_after in H as ->. by split.
  - injection H as <-. by apply Hsame.
  - injection H as <-. by apply Hsame.
  - unfold Authorizer.verify_code in H. rewrite mbind_M in H. unfold_M.
    destruct (authorizers w !! a') as [x0|] eqn:Ha'; [|discriminate].
    cbn beta iota in H. destruct (a_class x0).
    + rewrite verify_code_eq, Ha' in H. injection H as <-. by apply Hsame.
    + injection H as <-. by apply Hsame.
  - unfold Authorizer.not_a_robot in H. rewrite mbind_M in H. unfold_M.
    destruct (authorizers w !! a') as [x0|] eqn:Ha'; [|discriminate].
    cbn beta iota in H. destruct (a_class x0).
    + injection H as <-. by apply Hsame.
    + rewrite not_a_robot_eq, Ha' in H. injection H as <-. by apply Hsame.
  - rewrite is_authorized_eq in H.
    destruct (authorizers w !! a'); [|discriminate].
    injection H as <-. by apply Hsame.
  - destruct pr as [pc|pd|pb]; cbn [pay] in H.
    + rewrite Credit_pay_eq in H.
      destruct (orders w !! o) as [d0|] eqn:Ho; [|discriminate].
      injection H as <-. by apply Hpaid.
    + rewrite Debit_pay_eq in H.
      destruct (authorizers w !! DebitPaymentProcessor.auth pd) as [x0|];
        [|discriminate].
      destruct (authorized_of x0).
      * destruct (orders w !! o) as [d0|] eqn:Ho; [|discriminate].
        injection H as <-. by apply Hpaid.
      * injection H as <-. by apply Hsame.
    + rewrite Bitcoin_pay_eq in H.
      destruct (orders w !! o) as [d0|] eqn:Ho; [|discriminate].
      injection H as <-. by apply Hpaid.
Qed.

Lemma run_plain (cs : list op) :
  ∀ w w', plain w → run cs w = Some w' → plain w'.
Proof.
  induction cs as [|c cs IH]; intros w w' Hw Hrun.
  - simpl in Hrun. by injection Hrun as <-.
  - cbn [run] in Hrun.
    destruct (after (call c w)) as [w1|] eqn:Hc; [|discriminate].
    eapply IH; [|exact Hrun]. by eapply call_plain.
Qed.

Lemma plain_world0 : plain world0.
Proof.
  split; [|by split]. intros o d H. cbn [world0 orders] in H.
  by rewrite lookup_empty in H.
Qed.

(** After any calls from the initial store, every order shows the class
    lists, so all orders show the same three sequences, equally long. *)
Lemma reachable_orders_share (cs : list op) (w : World) (o : loc) (v : OrderView) :
  run cs world0 = Some w →
  view o w = Val v w →
  v_items v = Order_items w ∧
  v_quantities v = Order_quantities w ∧
  v_prices v = Order_prices w ∧
  parallel v.
Proof.
  intros Hrun Hv. apply view_Val in Hv as (_ & d & Hd & ->).
  destruct (run_plain cs world0 w plain_world0 Hrun) as (Hown & Hiq & Hqp).
  destruct (Hown o d Hd) as (Hi & Hq & Hp).
  unfold parallel, view_of. cbn. rewrite Hi, Hq, Hp. cbn. auto.
Qed.

(** An [add_item] on one order can unbalance another order that holds
    only some of its lists itself. *)
Example add_elsewhere_unbalances :
  let w := set_order 1 (mkOrderDict None None None None)
             (set_order 0 (mkOrderDict (Some []) None None None) world0) in
  the (view 0 w) = Some (mkView [] [] [] "open") ∧
  the ((Order.add_item 1 "SSD" 1 150;; view 0) w)
  = Some (mkView [] [1%Z] [150%Z] "open").
Proof. split; vm_compute; reflexivity. Qed.

(** * The claims *)

Lemma view_lookup (o : loc) (w : World) (d : OrderDict) :
  orders w !! o = Some d → view o w = Val (view_of w d) w.
Proof. intros Hd. by rewrite view_eq, Hd. Qed.

Lemma parallel_nil (v : OrderView) :
  parallel v → v_items v = [] → v_quantities v = [] ∧ v_prices v = [].
Proof.
  intros [Hiq Hqp] Hnil. rewrite Hnil in Hiq.
  destruct (v_quantities v); [|discriminate].
  destruct (v_prices v); [done|discriminate].
Qed.

(** C1: [DebitPaymentProcessor.pay] raises "Not Authorized" exactly when
    the authorizer it holds answers false at the time of the call, it
    raises nothing else, and it returns when the authorizer answers true. *)
Theorem debit_pay_raises_iff_unauthorized
    (p : DebitPaymentProcessor.t) (o : loc) (w : World)
    (x : AuthObj) (d : OrderDict) :
  authorizers w !! DebitPaymentProcessor.auth p = Some x →
  orders w !! o = Some d →
  ((∃ w', DebitPaymentProcessor.pay p o w = Exc (Exception "Not Authorized") w')
   ↔ Authorizer.is_authorized (DebitPaymentProcessor.auth p) w = Val false w) ∧
  (∀ e w', DebitPaymentProcessor.pay p o w = Exc e w' →
           e = Exception "Not Authorized") ∧
  (Authorizer.is_authorized (DebitPaymentProcessor.auth p) w = Val true w →
   ∃ w', DebitPaymentProcessor.pay p o w = Val tt w').
Proof.
  intros Hx Hd. rewrite Debit_pay_eq, is_authorized_eq, Hx, Hd.
  destruct (authorized_of x); (split; [split|split]).
  - intros [w' H]. discriminate.
  - intros H. discriminate.
  - intros e w' H. discriminate.
  - intros _. eauto.
  - intros _. reflexivity.
  - intros _. eauto.
  - intros e w' H. by injection H as <- _.
  - intros H. discriminate.
Qed.

(** C2: when the authorizer is unverified, [DebitPaymentProcessor.pay]
    raises and leaves the store as it was: the order still shows status
    "open" and the same items, quantities and prices. *)
Theorem debit_pay_unauthorized_leaves_order
    (p : DebitPaymentProcessor.t) (o : loc) (w : World) (v : OrderView) :
  view o w = Val v w →
  v_status v = "open"%string →
  Authorizer.is_authorized (DebitPaymentProcessor.auth p) w = Val false w →
  ∃ w', DebitPaymentProcessor.pay p o w = Exc (Exception "Not Authorized") w' ∧
        w' = w ∧
        ∃ v', view o w' = Val v' w' ∧
              v_status v' = "open"%string ∧
              v_items v' = v_items v ∧
              v_quantities v' = v_quantities v ∧
              v_prices v' = v_prices v.
Proof.
  intros Hv Hs Ha. apply is_authorized_Val in Ha as (_ & x & Hx & Hb).
  exists w. rewrite Debit_pay_eq, Hx, Hb.
  split; [reflexivity|]. split; [reflexivity|].
  exists v. auto.
Qed.

(** C3: after any sequence of [add_item] calls on an order whose three
    sequences are parallel, [total_price] returns the dot product of its
    quantities and prices, which is the earlier dot product plus the sum of
    quantity times price over the added items; for an order that was empty
    it is that sum alone, and for an order with no items it is 0. *)
Theorem total_price_is_dot_product
    (o : loc) (w : World) (v : OrderView) (its : list Item) :
  view o w = Val v w →
  parallel v →
  ∃ w' v',
    add_items o its w = Val tt w' ∧
    view o w' = Val v' w' ∧
    v_items v' = v_items v ++ map name its ∧
    v_quantities v' = v_quantities v ++ map quantity its ∧
    v_prices v' = v_prices v ++ map price its ∧
    Order.total_price o w' = Val (dot (v_quantities v') (v_prices v')) w' ∧
    dot (v_quantities v') (v_prices v')
      = (dot (v_quantities v) (v_prices v) + sum_subtotals its)%Z ∧
    (v_items v = [] → Order.total_price o w' = Val (sum_subtotals its) w') ∧
    (v_items v' = [] → Order.total_price o w' = Val 0%Z w').
Proof.
  intros Hv Hpar. apply view_Val in Hv as (_ & d & Hd & ->).
  pose proof Hpar as [Hiq Hqp].
  destruct (add_items_effect o its w d Hd) as (w' & d' & Hrun & Hd' & Hv').
  exists w', (view_of w' d').
  assert (Hlen : length (v_prices (view_of w' d'))
                 ≤ length (v_quantities (view_of w' d'))).
  { rewrite Hv'. cbn [v_prices v_quantities].
    rewrite !length_app, !length_map. lia. }
  assert (Htot := total_price_dot o w' d' Hd' Hlen).
  assert (Hdot : dot (v_quantities (view_of w' d')) (v_prices (view_of w' d'))
                 = (dot (v_quantities (view_of w d)) (v_prices (view_of w d))
                    + sum_subtotals its)%Z).
  { rewrite Hv'. cbn [v_prices v_quantities].
    rewrite dot_app by exact Hqp. by rewrite dot_items. }
  split; [exact Hrun|]. split; [by apply view_lookup|].
  rewrite Hv' at 1 2 3. cbn [v_items v_quantities v_prices].
  do 3 (split; [reflexivity|]). split; [exact Htot|]. split; [exact Hdot|].
  split.
  - intros Hnil. rewrite Htot, Hdot. do 2 f_equal.
    destruct (parallel_nil _ Hpar Hnil) as [-> _]. reflexivity.
  - intros Hnil. rewrite Htot. f_equal.
    rewrite Hv' in Hnil. cbn [v_items] in Hnil.
    apply app_eq_nil in Hnil as [Hnil Hits].
    rewrite Hdot. destruct (parallel_nil _ Hpar Hnil) as [-> _].
    destruct its; [reflexivity|discriminate].
Qed.

(** A new order shows whatever the class lists hold at that moment. *)
Lemma Order_new_view (w : World) :
  ∃ o w', Order.new w = Val o w' ∧
          orders w !! o = None ∧
          view o w' = Val (mkView (Order_items w) (Order_quantities w)
                                  (Order_prices w) "open") w'.
Proof.
  eexists _, _. split; [reflexivity|]. split.
  - apply not_elem_of_dom. apply is_fresh.
  - rewrite view_eq. cbn [set_order orders]. by rewrite lookup_insert_eq.
Qed.

(** C4: an [Order] built after another order received an item is not
    empty: it shows that item, because [items], [quantities] and [prices]
    are class attributes and [add_item] extends them in place. *)
Theorem second_order_not_empty :
  the ((o1 ← Order.new;
        Order.add_item o1 "Keyboard" 1 50;;
        o2 ← Order.new;
        view o2) world0)
  = Some (mkView ["Keyboard"%string] [1%Z] [50%Z] "open") ∧
  the ((o1 ← Order.new;
        Order.add_item o1 "Keyboard" 1 50;;
        o2 ← Order.new;
        Order.total_price o2) world0)
  = Some 50%Z.
Proof. split; vm_compute; reflexivity. Qed.

(** C5: every payment variant, the debit one with an authorizer that
    answers true, returns and leaves the order with status "PAID" and
    the same items, quantities and prices; no other order, no class list
    and no authorizer changes, and text is only added to the output. *)
Theorem pay_sets_status_PAID
    (pr : PaymentProcessor) (o : loc) (w : World) (v : OrderView) :
  view o w = Val v w →
  (∀ pd, pr = Debit pd →
         Authorizer.is_authorized (DebitPaymentProcessor.auth pd) w = Val true w) →
  ∃ w', pay pr o w = Val tt w' ∧
        view o w' = Val (mkView (v_items v) (v_quantities v) (v_prices v) "PAID") w' ∧
        (∀ o', o' ≠ o → orders w' !! o' = orders w !! o') ∧
        Order_items w' = Order_items w ∧
        Order_quantities w' = Order_quantities w ∧
        Order_prices w' = Order_prices w ∧
        authorizers w' = authorizers w ∧
        ∃ out, stdout w' = stdout w ++ out.
Proof.
  intros Hv Hauth. apply view_Val in Hv as (_ & d & Hd & ->).
  assert (Hpaid : ∀ out,
    view o (paid o d out w)
      = Val (mkView (v_items (view_of w d)) (v_quantities (view_of w d))
                    (v_prices (view_of w d)) "PAID") (paid o d out w) ∧
    (∀ o', o' ≠ o → orders (paid o d out w) !! o' = orders w !! o') ∧
    Order_items (paid o d out w) = Order_items w ∧
    Order_quantities (paid o d out w) = Order_quantities w ∧
    Order_prices (paid o d out w) = Order_prices w ∧
    authorizers (paid o d out w) = authorizers w ∧
    ∃ out', stdout (paid o d out w) = stdout w ++ out').
  { intros out. split.
    - rewrite view_eq. cbn [paid orders]. by rewrite lookup_insert_eq.
    - split; [|cbn; eauto 10].
      intros o' Hne. cbn [paid orders]. by rewrite lookup_insert_ne. }
  destruct pr as [pc|pd|pb]; cbn [pay].
  - rewrite Credit_pay_eq, Hd. eexists. split; [reflexivity|apply Hpaid].
  - specialize (Hauth pd eq_refl).
    apply is_authorized_Val in Hauth as (_ & x & Hx & Hb).
    rewrite Debit_pay_eq, Hx, Hb, Hd. eexists. split; [reflexivity|apply Hpaid].
  - rewrite Bitcoin_pay_eq, Hd. eexists. split; [reflexivity|apply Hpaid].
Qed.

(** C6: in any store, the initial one included, a new [SMSAuth] or
    [NotARobot] is a new object that answers false, and answers true once
    its verification method has run; on any authorizer of the right class,
    whatever its state and whatever the code, the verification method
    returns and leaves it answering true. *)
Theorem authorizer_false_before_true_after (w : World) (code : string) :
  (∃ a w1 w2,
      SMSAuth.new w = Val a w1 ∧
      authorizers w !! a = None ∧
      SMSAuth.is_authorized a w1 = Val false w1 ∧
      SMSAuth.verify_code a code w1 = Val tt w2 ∧
      SMSAuth.is_authorized a w2 = Val true w2) ∧
  (∃ a w1 w2,
      NotARobot.new w = Val a w1 ∧
      authorizers w !! a = None ∧
      NotARobot.is_authorized a w1 = Val false w1 ∧
      NotARobot.not_a_robot a w1 = Val tt w2 ∧
      NotARobot.is_authorized a w2 = Val true w2) ∧
  (∀ s xs,
      authorizers w !! s = Some xs → a_class xs = SMSAuthCls →
      ∃ w', Authorizer.verify_code s code w = Val tt w' ∧
            Authorizer.is_authorized s w' = Val true w') ∧
  (∀ r xr,
      authorizers w !! r = Some xr → a_class xr = NotARobotCls →
      ∃ w', Authorizer.not_a_robot r w = Val tt w' ∧
            Authorizer.is_authorized r w' = Val true w').
Proof.
  repeat apply conj.
  - eexists _, _, _. split; [reflexivity|].
    split; [apply not_elem_of_dom, is_fresh|].
    rewrite verify_code_eq, !SMSAuth_is_authorized_eq.
    cbn [set_authorizer authorizers]. rewrite !lookup_insert_eq.
    split; [reflexivity|]. split; [reflexivity|].
    cbn [authorizers]. by rewrite lookup_insert_eq.
  - eexists _, _, _. split; [reflexivity|].
    split; [apply not_elem_of_dom, is_fresh|].
    rewrite not_a_robot_eq, !NotARobot_is_authorized_eq.
    cbn [set_authorizer authorizers]. rewrite !lookup_insert_eq.
    split; [reflexivity|]. split; [reflexivity|].
    cbn [authorizers]. by rewrite lookup_insert_eq.
  - intros s xs Hs Hcs.
    unfold Authorizer.verify_code. rewrite mbind_M. unfold auth_obj.
    rewrite Hs, Hcs, verify_code_eq, Hs. eexists. split; [reflexivity|].
    rewrite is_authorized_eq. cbn [authorizers]. by rewrite lookup_insert_eq.
  - intros r xr Hr Hcr.
    unfold Authorizer.not_a_robot. rewrite mbind_M. unfold auth_obj.
    rewrite Hr, Hcr, not_a_robot_eq, Hr. eexists. split; [reflexivity|].
    rewrite is_authorized_eq. cbn [authorizers]. by rewrite lookup_insert_eq.
Qed.

(** C7: an authorizer that answers true still answers true after any
    sequence of method calls, on it or on anything else. *)
Theorem authorization_never_revoked (cs : list op) :
  ∀ (w w' : World) (a : loc),
    Authorizer.is_authorized a w = Val true w →
    run cs w = Some w' →
    Authorizer.is_authorized a w' = Val true w'.
Proof.
  induction cs as [|c cs IH]; intros w w' a Ha Hrun.
  - simpl in Hrun. by injection Hrun as <-.
  - cbn [run] in Hrun.
    destruct (after (call c w)) as [w1|] eqn:Hc; [|discriminate].
    apply (IH w1 w' a); [|exact Hrun].
    apply is_authorized_Val in Ha as (_ & x & Hx & Hb).
    destruct (call_authorizers c w w1 a x Hc Hx) as (x' & Hx' & _ & Hkeep).
    rewrite is_authorized_eq, Hx'. by rewrite (Hkeep Hb).
Qed.

(** C8: with an authorizer that answers true, the debit variant returns
    like the credit and bitcoin variants and leaves the same store, the
    printed text apart; the order shows the same state after each. *)
Theorem authorized_debit_pay_like_others
    (pd : DebitPaymentProcessor.t) (pc : CreditPaymentProcessor.t)
    (pb : BitcoinPaymentProcessor.t) (o : loc) (w : World) (v : OrderView) :
  view o w = Val v w →
  Authorizer.is_authorized (DebitPaymentProcessor.auth pd) w = Val true w →
  ∃ wd wc wb,
    DebitPaymentProcessor.pay pd o w = Val tt wd ∧
    CreditPaymentProcessor.pay pc o w = Val tt wc ∧
    BitcoinPaymentProcessor.pay pb o w = Val tt wb ∧
    quiet wd = quiet wc ∧
    quiet wd = quiet wb ∧
    the (view o wd) = the (view o wc) ∧
    the (view o wd) = the (view o wb) ∧
    the (view o wd) = Some (mkView (v_items v) (v_quantities v) (v_prices v) "PAID").
Proof.
  intros Hv Ha. apply view_Val in Hv as (_ & d & Hd & ->).
  apply is_authorized_Val in Ha as (_ & x & Hx & Hb).
  rewrite Debit_pay_eq, Credit_pay_eq, Bitcoin_pay_eq, Hx, Hb, Hd.
  eexists _, _, _. do 3 (split; [reflexivity|]).
  do 2 (split; [reflexivity|]).
  rewrite !view_eq. cbn [paid orders]. rewrite !lookup_insert_eq.
  repeat split.
Qed.

(** C9: on an order with no items, quantities or prices, adding
    ("Keyboard", 1, 50), ("SSD", 1, 150) and ("USB Cable", 2, 5) in that
    order makes [total_price] return 210. *)
Theorem keyboard_ssd_cable_total (o : loc) (w : World) (v : OrderView) :
  view o w = Val v w →
  v_items v = [] → v_quantities v = [] → v_prices v = [] →
  ∃ w', (Order.add_item o "Keyboard" 1 50;;
         Order.add_item o "SSD" 1 150;;
         Order.add_item o "USB Cable" 2 5;;
         Order.total_price o) w = Val 210%Z w'.
Proof.
  intros Hv Hi Hq Hp. apply view_Val in Hv as (_ & d & Hd & ->).
  destruct (add_item_effect o "Keyboard" 1 50 w d Hd)
    as (w1 & d1 & Hr1 & Hd1 & Hv1 & _).
  destruct (add_item_effect o "SSD" 1 150 w1 d1 Hd1)
    as (w2 & d2 & Hr2 & Hd2 & Hv2 & _).
  destruct (add_item_effect o "USB Cable" 2 5 w2 d2 Hd2)
    as (w3 & d3 & Hr3 & Hd3 & Hv3 & _).
  rewrite Hv2, Hv1, Hi, Hq, Hp in Hv3. cbn in Hv3.
  exists w3. rewrite mbind_M, Hr1, mbind_M, Hr2, mbind_M, Hr3.
  rewrite (total_price_dot o w3 d3 Hd3); rewrite Hv3; [reflexivity|].
  cbn. lia.
Qed.

(** C10: a call that is not [add_item] on another order keeps the
    items, quantities and prices of an order equally long ([add_item] on
    the order itself extends each by one entry), and on an order whose
    three sequences are equally long [total_price] returns, so it never
    indexes [quantities] out of range. *)
Theorem parallel_preserved
    (c : op) (o : loc) (w w' : World) (v : OrderView) :
  view o w = Val v w →
  parallel v →
  ¬ adds_elsewhere o c →
  after (call c w) = Some w' →
  (∃ v', view o w' = Val v' w' ∧ parallel v' ∧
         (∀ n q p, c = AddItem o n q p →
                   v_items v' = v_items v ++ [n] ∧
                   v_quantities v' = v_quantities v ++ [q] ∧
                   v_prices v' = v_prices v ++ [p])) ∧
  Order.total_price o w = Val (dot (v_quantities v) (v_prices v)) w ∧
  (∀ w'', Order.total_price o w ≠ Exc IndexError w'').
Proof.
  intros Hv Hpar Hc Hcall. apply view_Val in Hv as (_ & d & Hd & ->).
  assert (Htot : Order.total_price o w
                 = Val (dot (v_quantities (view_of w d)) (v_prices (view_of w d))) w).
  { apply total_price_dot; [exact Hd|]. destruct Hpar as [_ Hqp]. lia. }
  split; [|split; [exact Htot|by rewrite Htot]].
  destruct (call_orders c w w' o d Hcall Hd) as (d' & Hd' & Hch).
  exists (view_of w' d'). split; [by apply view_lookup|].
  destruct Hpar as [Hiq Hqp].
  destruct Hch as [Heq | n q p -> -> | pr -> -> | o' n q p -> Hne _ _ _ _].
  - split; [by rewrite Heq|]. intros n q p ->. exfalso.
    destruct (add_item_effect o n q p w d Hd) as (w1 & d1 & Hr & Hd1 & Hv1 & _).
    cbn [call] in Hcall. rewrite Hr in Hcall. injection Hcall as <-.
    rewrite Hd1 in Hd'. injection Hd' as <-.
    rewrite Hv1 in Heq. apply (f_equal (λ x, length (v_items x))) in Heq.
    cbn in Heq. rewrite length_app in Heq. cbn in Heq. lia.
  - split.
    + split; cbn [v_items v_quantities v_prices]; rewrite !length_app;
        cbn [length]; lia.
    + intros n' q' p' [= <- <- <-]. by cbn.
  - split; [by split|]. intros n q p H. discriminate.
  - exfalso. apply Hc. exact Hne.
Qed.

(** * The claims at concrete stores *)

Lemma debit_pay_raises_iff_unauthorized_witness :
  let p := DebitPaymentProcessor.init "9876" 0 in
  ((∃ w', DebitPaymentProcessor.pay p 0 shop = Exc (Exception "Not Authorized") w')
   ↔ Authorizer.is_authorized 0 shop = Val false shop) ∧
  (∀ e w', DebitPaymentProcessor.pay p 0 shop = Exc e w' →
           e = Exception "Not Authorized") ∧
  (Authorizer.is_authorized 0 shop = Val true shop →
   ∃ w', DebitPaymentProcessor.pay p 0 shop = Val tt w').
Proof.
  apply (debit_pay_raises_iff_unauthorized
           (DebitPaymentProcessor.init "9876" 0) 0 shop
           (mkAuthObj SMSAuthCls None) (mkOrderDict None None None None));
    vm_compute; reflexivity.
Defined.

Lemma debit_pay_unauthorized_leaves_order_witness :
  ∃ w', DebitPaymentProcessor.pay (DebitPaymentProcessor.init "9876" 0) 0 shop
        = Exc (Exception "Not Authorized") w' ∧
        w' = shop ∧
        ∃ v', view 0 w' = Val v' w' ∧
              v_status v' = "open"%string ∧
              v_items v' = [] ∧ v_quantities v' = [] ∧ v_prices v' = [].
Proof.
  apply (debit_pay_unauthorized_leaves_order
           (DebitPaymentProcessor.init "9876" 0) 0 shop (mkView [] [] [] "open"));
    vm_compute; reflexivity.
Defined.

Lemma total_price_is_dot_product_witness :
  ∃ w' v',
    add_items 0 [mkItem "Mouse" 3 25; mkItem "Monitor" 2 200] shop = Val tt w' ∧
    view 0 w' = Val v' w' ∧
    v_items v' = [] ++ ["Mouse"%string; "Monitor"%string] ∧
    v_quantities v' = [] ++ [3; 2]%Z ∧
    v_prices v' = [] ++ [25; 200]%Z ∧
    Order.total_price 0 w' = Val (dot (v_quantities v') (v_prices v')) w' ∧
    dot (v_quantities v') (v_prices v') = (0 + 475)%Z ∧
    (@nil string = [] → Order.total_price 0 w' = Val 475%Z w') ∧
    (v_items v' = [] → Order.total_price 0 w' = Val 0%Z w').
Proof.
  apply (total_price_is_dot_product 0 shop (mkView [] [] [] "open")
           [mkItem "Mouse" 3 25; mkItem "Monitor" 2 200]).
  - vm_compute; reflexivity.
  - split; reflexivity.
Defined.

Lemma pay_sets_status_PAID_witness :
  ∃ w', pay (Debit (DebitPaymentProcessor.init "9876" 1)) 0 shop_verified = Val tt w' ∧
        view 0 w' = Val (mkView [] [] [] "PAID") w' ∧
        (∀ o', o' ≠ 0 → orders w' !! o' = orders shop_verified !! o') ∧
        Order_items w' = [] ∧
        Order_quantities w' = [] ∧
        Order_prices w' = [] ∧
        authorizers w' = authorizers shop_verified ∧
        ∃ out, stdout w' = [] ++ out.
Proof.
  apply (pay_sets_status_PAID (Debit (DebitPaymentProcessor.init "9876" 1))
           0 shop_verified (mkView [] [] [] "open")).
  - vm_compute; reflexivity.
  - intros pd [= <-]. vm_compute; reflexivity.
Defined.

Lemma authorizer_false_before_true_after_witness :
  (∃ a w1 w2,
      SMSAuth.new world0 = Val a w1 ∧
      authorizers world0 !! a = None ∧
      SMSAuth.is_authorized a w1 = Val false w1 ∧
      SMSAuth.verify_code a "123456" w1 = Val tt w2 ∧
      SMSAuth.is_authorized a w2 = Val true w2) ∧
  (∃ a w1 w2,
      NotARobot.new world0 = Val a w1 ∧
      authorizers world0 !! a = None ∧
      NotARobot.is_authorized a w1 = Val false w1 ∧
      NotARobot.not_a_robot a w1 = Val tt w2 ∧
      NotARobot.is_authorized a w2 = Val true w2) ∧
  (∃ w', Authorizer.verify_code 0 "123456" shop = Val tt w' ∧
         Authorizer.is_authorized 0 w' = Val true w') ∧
  (∃ w', Authorizer.not_a_robot 1 shop = Val tt w' ∧
         Authorizer.is_authorized 1 w' = Val true w').
Proof.
  destruct (authorizer_false_before_true_after world0 "123456")
    as (Hsms & Hrobot & _ & _).
  destruct (authorizer_false_before_true_after shop "123456")
    as (_ & _ & Hverify & Hcheck).
  split; [exact Hsms|]. split; [exact Hrobot|]. split.
  - apply (Hverify 0 (mkAuthObj SMSAuthCls None)); vm_compute; reflexivity.
  - apply (Hcheck 1 (mkAuthObj NotARobotCls None)); vm_compute; reflexivity.
Defined.

Lemma authorization_never_revoked_witness :
  match run session shop_verified with
  | Some w' => Authorizer.is_authorized 1 w' = Val true w'
  | None => False
  end.
Proof.
  destruct (run session shop_verified) as [w'|] eqn:Hrun.
  - apply (authorization_never_revoked session shop_verified w' 1);
      [vm_compute; reflexivity | exact Hrun].
  - vm_compute in Hrun. discriminate.
Defined.

Lemma authorized_debit_pay_like_others_witness :
  ∃ wd wc wb,
    DebitPaymentProcessor.pay (DebitPaymentProcessor.init "9876" 1) 0 shop_verified
      = Val tt wd ∧
    CreditPaymentProcessor.pay (CreditPaymentProcessor.init "1234") 0 shop_verified
      = Val tt wc ∧
    BitcoinPaymentProcessor.pay (BitcoinPaymentProcessor.init "wallet123") 0 shop_verified
      = Val tt wb ∧
    quiet wd = quiet wc ∧
    quiet wd = quiet wb ∧
    the (view 0 wd) = the (view 0 wc) ∧
    the (view 0 wd) = the (view 0 wb) ∧
    the (view 0 wd) = Some (mkView [] [] [] "PAID").
Proof.
  apply (authorized_debit_pay_like_others
           (DebitPaymentProcessor.init "9876" 1) (CreditPaymentProcessor.init "1234")
           (BitcoinPaymentProcessor.init "wallet123") 0 shop_verified
           (mkView [] [] [] "open"));
    vm_compute; reflexivity.
Defined.

Lemma keyboard_ssd_cable_total_witness :
  ∃ w', (Order.add_item 0 "Keyboard" 1 50;;
         Order.add_item 0 "SSD" 1 150;;
         Order.add_item 0 "USB Cable" 2 5;;
         Order.total_price 0) shop = Val 210%Z w'.
Proof.
  apply (keyboard_ssd_cable_total 0 shop (mkView [] [] [] "open"));
    vm_compute; reflexivity.
Defined.

Lemma parallel_preserved_witness :
  let w' := set_Order_prices [50%Z]
              (set_Order_quantities [1%Z] (set_Order_items ["Keyboard"%string] shop)) in
  (∃ v', view 0 w' = Val v' w' ∧ parallel v' ∧
         (∀ n q p, AddItem 0 "Keyboard" 1 50 = AddItem 0 n q p →
                   v_items v' = [] ++ [n] ∧
                   v_quantities v' = [] ++ [q] ∧
                   v_prices v' = [] ++ [p])) ∧
  Order.total_price 0 shop = Val 0%Z shop ∧
  (∀ w'', Order.total_price 0 shop ≠ Exc IndexError w'').
Proof.
  apply (parallel_preserved (AddItem 0 "Keyboard" 1 50) 0 shop _
           (mkView [] [] [] "open")).
  - vm_compute; reflexivity.
  - split; reflexivity.
  - intros H. by apply H.
  - vm_compute; reflexivity.
Defined.

(** * Further properties of solid.py *)

Lemma total_price_result (o : loc) (w : World) (d : OrderDict) :
  orders w !! o = Some d →
  result (Order.total_price o w)
  = Some (total_of (v_quantities (view_of w d)) (v_prices (view_of w d))) ∧
  after (Order.total_price o w) = Some w.
Proof.
  intros Hd. unfold total_of. case_decide as Hle.
  - by rewrite (total_price_dot o w d Hd Hle).
  - rewrite (total_price_IndexError o w d Hd) by lia. done.
Qed.

(** [total_price] pairs each price with the quantity at its index: with
    at least as many quantities as prices it returns the sum over the
    indices of [prices] (further quantities are not read), with fewer it
    raises [IndexError]; either way the store is left as it was, and
    [items] is never read. *)
Theorem total_price_by_lengths (o : loc) (w : World) (v : OrderView) :
  view o w = Val v w →
  (length (v_prices v) ≤ length (v_quantities v) →
   Order.total_price o w
   = Val (dot (take (length (v_prices v)) (v_quantities v)) (v_prices v)) w) ∧
  (length (v_quantities v) < length (v_prices v) →
   Order.total_price o w = Exc IndexError w).
Proof.
  intros Hv. apply view_Val in Hv as (_ & d & Hd & ->). split.
  - intros Hle. rewrite (total_price_dot o w d Hd Hle). f_equal.
    generalize dependent (v_quantities (view_of w d)).
    induction (v_prices (view_of w d)) as [|p ps IH]; intros [|q qs] Hle;
      simpl in *; try reflexivity; try lia.
    rewrite <- IH by lia. reflexivity.
  - intros Hlt. by apply (total_price_IndexError o w d Hd).
Qed.

Lemma pay_Val (pr : PaymentProcessor) (o : loc) (w w' : World) :
  pay pr o w = Val tt w' →
  ∃ d out, orders w !! o = Some d ∧ w' = paid o d out w.
Proof.
  destruct pr as [pc|pd|pb]; cbn [pay].
  - rewrite Credit_pay_eq. destruct (orders w !! o) as [d|]; [|discriminate].
    intros [= <-]. eauto.
  - rewrite Debit_pay_eq.
    destruct (authorizers w !! DebitPaymentProcessor.auth pd) as [x|];
      [|discriminate].
    destruct (authorized_of x); [|discriminate].
    destruct (orders w !! o) as [d|]; [|discriminate].
    intros [= <-]. eauto.
  - rewrite Bitcoin_pay_eq. destruct (orders w !! o) as [d|]; [|discriminate].
    intros [= <-]. eauto.
Qed.

(** [pay] returns in a store exactly when it returns in any store with
    the same authorizers in which the order exists. *)
Lemma pay_again (pr : PaymentProcessor) (o : loc) (w w1 w' : World) (d1 : OrderDict) :
  pay pr o w = Val tt w' →
  authorizers w1 = authorizers w →
  orders w1 !! o = Some d1 →
  ∃ out, pay pr o w1 = Val tt (paid o d1 out w1).
Proof.
  intros H Ha Hd1. destruct pr as [pc|pd|pb]; cbn [pay] in *.
  - rewrite Credit_pay_eq, Hd1. eauto.
  - rewrite Debit_pay_eq in H. rewrite Debit_pay_eq, Ha, Hd1.
    destruct (authorizers w !! DebitPaymentProcessor.auth pd) as [x|];
      [|discriminate].
    destruct (authorized_of x); [eauto|discriminate].
  - rewrite Bitcoin_pay_eq, Hd1. eauto.
Qed.

(** A payment changes no total: after [pay] returns, [total_price] gives
    on every order what it gave before, value or exception. *)
Theorem pay_keeps_totals (pr : PaymentProcessor) (o o2 : loc) (w w' : World) :
  pay pr o w = Val tt w' →
  result (Order.total_price o2 w') = result (Order.total_price o2 w).
Proof.
  intros H. apply pay_Val in H as (d & out & Hd & ->).
  destruct (decide (o2 = o)) as [->|Hne].
  - assert (Hd' : orders (paid o d out w) !! o = Some (with_status "PAID" d))
      by (cbn [paid orders]; by rewrite lookup_insert_eq).
    destruct (total_price_result o w d Hd) as [-> _].
    destruct (total_price_result o _ _ Hd') as [-> _]. reflexivity.
  - destruct (orders w !! o2) as [d2|] eqn:Hd2.
    + assert (Hd' : orders (paid o d out w) !! o2 = Some d2)
        by (cbn [paid orders]; by rewrite lookup_insert_ne).
      destruct (total_price_result o2 w d2 Hd2) as [-> _].
      destruct (total_price_result o2 _ _ Hd') as [-> _]. reflexivity.
    + unfold Order.total_price, Order.prices. unfold_M.
      cbn [paid orders]. rewrite lookup_insert_ne by done. by rewrite Hd2.
Qed.

(** No [pay] looks at the status: on an order that is already paid, any
    variant that could pay before pays again, and this second payment
    changes nothing but the printed text. *)
Theorem pay_twice (p1 p2 : PaymentProcessor) (o : loc) (w w1 w2 : World) :
  pay p1 o w = Val tt w1 →
  pay p2 o w = Val tt w2 →
  ∃ w3, pay p2 o w1 = Val tt w3 ∧ quiet w3 = quiet w1 ∧
        the (view o w3) = the (view o w1).
Proof.
  intros H1 H2. apply pay_Val in H1 as (d & out & Hd & ->).
  assert (Hd1 : orders (paid o d out w) !! o = Some (with_status "PAID" d))
    by (cbn [paid orders]; by rewrite lookup_insert_eq).
  destruct (pay_again p2 o w (paid o d out w) w2 _ H2 eq_refl Hd1) as [out2 ->].
  eexists. split; [reflexivity|].
  assert (Hq : quiet (paid o (with_status "PAID" d) out2 (paid o d out w))
               = quiet (paid o d out w)).
  { unfold quiet, paid. cbn. by rewrite insert_insert_eq. }
  split; [exact Hq|].
  rewrite !view_eq. cbn [paid orders]. rewrite !lookup_insert_eq. reflexivity.
Qed.

Lemma add_items_total (o : loc) (w : World) (d : OrderDict) (its : list Item) :
  orders w !! o = Some d →
  parallel (view_of w d) →
  ∃ w', (add_items o its;; Order.total_price o) w
        = Val (dot (v_quantities (view_of w d)) (v_prices (view_of w d))
               + sum_subtotals its)%Z w'.
Proof.
  intros Hd [Hiq Hqp].
  destruct (add_items_effect o its w d Hd) as (w' & d' & Hrun & Hd' & Hv').
  exists w'. rewrite mbind_M, Hrun.
  rewrite (total_price_dot o w' d' Hd'); rewrite Hv'; cbn [v_quantities v_prices].
  - rewrite dot_app by exact Hqp. by rewrite dot_items.
  - rewrite !length_app, !length_map. lia.
Qed.

Lemma sum_subtotals_Permutation (its its' : list Item) :
  its ≡ₚ its' → sum_subtotals its = sum_subtotals its'.
Proof.
  induction 1 as [|it l l' _ IH|it1 it2 l|l l' l'' _ IH1 _ IH2]; simpl.
  - reflexivity.
  - by rewrite IH.
  - lia.
  - by rewrite IH1.
Qed.

(** For integer quantities and prices (Python ints, which add and
    multiply exactly) the total does not depend on the order in which the
    items are added: two runs of [add_item] calls that add the same items,
    in any order, end with the same [total_price]. *)
Theorem total_price_any_order
    (o : loc) (w : World) (v : OrderView) (its its' : list Item) :
  view o w = Val v w →
  parallel v →
  its ≡ₚ its' →
  ∃ total,
    result ((add_items o its;; Order.total_price o) w) = Some (inl total) ∧
    result ((add_items o its';; Order.total_price o) w) = Some (inl total).
Proof.
  intros Hv Hpar Hperm. apply view_Val in Hv as (_ & d & Hd & ->).
  destruct (add_items_total o w d its Hd Hpar) as [w1 H1].
  destruct (add_items_total o w d its' Hd Hpar) as [w2 H2].
  eexists. rewrite H1, H2. cbn [result].
  split; [reflexivity|]. by rewrite (sum_subtotals_Permutation its its').
Qed.

(** After any method calls from the initial store, [total_price] returns
    on every order, and returns the same value on all of them: the sum over
    the class lists, which hold the items added to any order. *)
Theorem reachable_total_price (cs : list op) (w : World) (o : loc) (v : OrderView) :
  run cs world0 = Some w →
  view o w = Val v w →
  Order.total_price o w = Val (dot (Order_quantities w) (Order_prices w)) w ∧
  length (Order_items w) = length (Order_prices w) ∧
  v_items v = Order_items w.
Proof.
  intros Hrun Hv.
  destruct (reachable_orders_share cs w o v Hrun Hv) as (Hi & Hq & Hp & Hiq & Hqp).
  apply view_Val in Hv as (_ & d & Hd & ->).
  rewrite (total_price_dot o w d Hd) by lia.
  rewrite Hq, Hp. rewrite <- Hi. split; [reflexivity|]. split; [|reflexivity].
  rewrite <- Hp. lia.
Qed.

(** A call that is no verification of [a] leaves the answer of [a] as it
    was. *)
Lemma call_authorized_same (c : op) (w w' : World) (a : loc) (x : AuthObj) :
  after (call c w) = Some w' →
  ¬ verifies a c →
  authorizers w !! a = Some x →
  authorizers w' !! a = Some x.
Proof.
  intros H Hc Ha.
  assert (Hnew : ∀ x0,
            authorizers w' = <[fresh (dom (authorizers w)) := x0]> (authorizers w) →
            authorizers w' !! a = Some x).
  { intros x0 ->. rewrite lookup_insert_ne; [done|].
    intros E. apply (is_fresh (dom (authorizers w))).
    rewrite E. apply elem_of_dom. eauto. }
  destruct c as [|o n q p|o| | |a' code|a'|a'|pr o]; cbn [call verifies] in H, Hc;
    rewrite ?after_ignore in H.
  - by injection H as <-.
  - destruct (orders w !! o) as [d|] eqn:Hd.
    + destruct (add_item_effect o n q p w d Hd) as (w1 & d1 & Hr & _ & _ & Hau & _).
      rewrite Hr in H. injection H as <-. by rewrite Hau.
    + by rewrite add_item_Wrong in H.
  - by apply total_price_after in H as ->.
  - injection H as <-. by eapply Hnew.
  - injection H as <-. by eapply Hnew.
  - unfold Authorizer.verify_code in H. rewrite mbind_M in H. unfold_M.
    destruct (authorizers w !! a') as [x0|] eqn:Ha'; [|discriminate].
    cbn beta iota in H. destruct (a_class x0).
    + rewrite verify_code_eq, Ha' in H. injection H as <-.
      cbn [authorizers]. by rewrite lookup_insert_ne.
    + by injection H as <-.
  - unfold Authorizer.not_a_robot in H. rewrite mbind_M in H. unfold_M.
    destruct (authorizers w !! a') as [x0|] eqn:Ha'; [|discriminate].
    cbn beta iota in H. destruct (a_class x0).
    + by injection H as <-.
    + rewrite not_a_robot_eq, Ha' in H. injection H as <-.
      cbn [authorizers]. by rewrite lookup_insert_ne.
  - rewrite is_authorized_eq in H.
    destruct (authorizers w !! a'); [|discriminate]. by injection H as <-.
  - destruct (after (pay pr o w)) as [w1|] eqn:Hp; [|discriminate].
    injection H as ->. destruct (pay pr o w) as [[] w2|e w2|] eqn:Hpay;
      [| |discriminate]; injection Hp as ->.
    + apply pay_Val in Hpay as (d & out & _ & ->). exact Ha.
    + destruct pr as [pc|pd|pb]; cbn [pay] in Hpay.
      * rewrite Credit_pay_eq in Hpay. by destruct (orders w !! o).
      * rewrite Debit_pay_eq in Hpay.
        destruct (authorizers w !! DebitPaymentProcessor.auth pd) as [x0|];
          [|discriminate].
        destruct (authorized_of x0).
        -- by destruct (orders w !! o).
        -- by injection Hpay as _ <-.
      * rewrite Bitcoin_pay_eq in Hpay. by destruct (orders w !! o).
Qed.

(** An authorizer answers false until its own verification method is
    called: whatever else is called meanwhile, on other authorizers, on
    orders or on processors, it still answers false, and a debit payment
    through it still raises. *)
Theorem unauthorized_until_verified (cs : list op) :
  ∀ (w w' : World) (a : loc),
    Authorizer.is_authorized a w = Val false w →
    Forall (fun c => ¬ verifies a c) cs →
    run cs w = Some w' →
    Authorizer.is_authorized a w' = Val false w' ∧
    ∀ code o,
      DebitPaymentProcessor.pay (DebitPaymentProcessor.init code a) o w'
      = Exc (Exception "Not Authorized") w'.
Proof.
  induction cs as [|c cs IH]; intros w w' a Ha Hcs Hrun.
  - simpl in Hrun. injection Hrun as <-. split; [exact Ha|].
    intros code o. apply is_authorized_Val in Ha as (_ & x & Hx & Hb).
    rewrite Debit_pay_eq. cbn [DebitPaymentProcessor.auth]. by rewrite Hx, Hb.
  - cbn [run] in Hrun.
    destruct (after (call c w)) as [w1|] eqn:Hc; [|discriminate].
    apply Forall_cons in Hcs as [Hn Hcs].
    apply (IH w1 w' a); [|exact Hcs|exact Hrun].
    apply is_authorized_Val in Ha as (_ & x & Hx & Hb).
    rewrite is_authorized_eq, (call_authorized_same c w w1 a x Hc Hn Hx).
    by rewrite Hb.
Qed.

(** A debit processor reads its authorizer when [pay] is called, not
    when the processor is built: verifying the authorizer after the
    processor was built with it lets the payment through. *)
Theorem verify_then_pay
    (a o : loc) (w : World) (x : AuthObj) (v : OrderView) (code security_code : string) :
  authorizers w !! a = Some x →
  view o w = Val v w →
  let processor := DebitPaymentProcessor.init security_code a in
  ∃ w',
    (match a_class x with
     | SMSAuthCls => Authorizer.verify_code a code
     | NotARobotCls => Authorizer.not_a_robot a
     end;;
     DebitPaymentProcessor.pay processor o) w = Val tt w' ∧
    the (view o w') = Some (mkView (v_items v) (v_quantities v) (v_prices v) "PAID").
Proof.
  intros Hx Hv processor. apply view_Val in Hv as (_ & d & Hd & ->).
  rewrite mbind_M.
  assert (Hpay : ∀ w1 x1, authorizers w1 !! a = Some x1 → authorized_of x1 = true →
            orders w1 = orders w → Order_items w1 = Order_items w →
            Order_quantities w1 = Order_quantities w →
            Order_prices w1 = Order_prices w →
            ∃ w', DebitPaymentProcessor.pay processor o w1 = Val tt w' ∧
                  the (view o w')
                  = Some (mkView (v_items (view_of w d)) (v_quantities (view_of w d))
                                 (v_prices (view_of w d)) "PAID")).
  { intros w1 x1 Hx1 Hb Eo Ei Eq Ep. rewrite Debit_pay_eq.
    cbn [processor DebitPaymentProcessor.auth]. rewrite Hx1, Hb, Eo, Hd.
    eexists. split; [reflexivity|]. rewrite view_eq. cbn [paid orders].
    rewrite lookup_insert_eq. cbn [the]. f_equal.
    unfold view_of. cbn. by rewrite Ei, Eq, Ep. }
  destruct (a_class x) eqn:Hc.
  - unfold Authorizer.verify_code. rewrite mbind_M. unfold auth_obj.
    rewrite Hx, Hc, verify_code_eq, Hx.
    apply (Hpay _ (mkAuthObj (a_class x) (Some true))); try reflexivity.
    cbn [authorizers]. by rewrite lookup_insert_eq.
  - unfold Authorizer.not_a_robot. rewrite mbind_M. unfold auth_obj.
    rewrite Hx, Hc, not_a_robot_eq, Hx.
    apply (Hpay _ (mkAuthObj (a_class x) (Some true))); try reflexivity.
    cbn [authorizers]. by rewrite lookup_insert_eq.
Qed.

(** *** Orders that hold their own lists *)

Lemma set_order_twice (o : loc) (d d' : OrderDict) (w : World) :
  set_order o d' (set_order o d w) = set_order o d' w.
Proof. unfold set_order. cbn. by rewrite insert_insert_eq. Qed.

Lemma order_dict_set (o : loc) (d : OrderDict) (w : World) :
  order_dict o (set_order o d w) = Val d (set_order o d w).
Proof. unfold order_dict. cbn [set_order orders]. by rewrite lookup_insert_eq. Qed.

Lemma lookup_set_order (o : loc) (d : OrderDict) (w : World) :
  orders (set_order o d w) !! o = Some d.
Proof. cbn [set_order orders]. by rewrite lookup_insert_eq. Qed.

Lemma items_append_own (o : loc) (n : string) (w : World) (d : OrderDict)
    (l : list string) :
  orders w !! o = Some d → d_items d = Some l →
  Order.items_append o n w = Val tt (set_order o (with_items (l ++ [n]) d) w).
Proof.
  intros Hd Hl. unfold Order.items_append. unfold_M. by rewrite Hd, Hl.
Qed.

Lemma quantities_append_own (o : loc) (q : Z) (w : World) (d : OrderDict)
    (l : list Z) :
  orders w !! o = Some d → d_quantities d = Some l →
  Order.quantities_append o q w
  = Val tt (set_order o (with_quantities (l ++ [q]) d) w).
Proof.
  intros Hd Hl. unfold Order.quantities_append. unfold_M. by rewrite Hd, Hl.
Qed.

Lemma prices_append_own (o : loc) (p : Z) (w : World) (d : OrderDict)
    (l : list Z) :
  orders w !! o = Some d → d_prices d = Some l →
  Order.prices_append o p w = Val tt (set_order o (with_prices (l ++ [p]) d) w).
Proof.
  intros Hd Hl. unfold Order.prices_append. unfold_M. by rewrite Hd, Hl.
Qed.

Lemma setattr_items_eq (o : loc) (l : list string) (w : World) (d : OrderDict) :
  orders w !! o = Some d →
  setattr_items o l w = Val tt (set_order o (with_items l d) w).
Proof. intros Hd. unfold setattr_items. unfold_M. by rewrite Hd. Qed.

Lemma setattr_quantities_eq (o : loc) (l : list Z) (w : World) (d : OrderDict) :
  orders w !! o = Some d →
  setattr_quantities o l w = Val tt (set_order o (with_quantities l d) w).
Proof. intros Hd. unfold setattr_quantities. unfold_M. by rewrite Hd. Qed.

Lemma setattr_prices_eq (o : loc) (l : list Z) (w : World) (d : OrderDict) :
  orders w !! o = Some d →
  setattr_prices o l w = Val tt (set_order o (with_prices l d) w).
Proof. intros Hd. unfold setattr_prices. unfold_M. by rewrite Hd. Qed.

Lemma set_status_eq (o : loc) (s : string) (w : World) (d : OrderDict) :
  orders w !! o = Some d →
  Order.set_status o s w = Val tt (set_order o (with_status s d) w).
Proof. intros Hd. unfold Order.set_status. unfold_M. by rewrite Hd. Qed.

Lemma add_item_own (o : loc) (n : string) (q p : Z) (w : World)
    (i : list string) (qs ps : list Z) (s : option string) :
  orders w !! o = Some (mkOrderDict (Some i) (Some qs) (Some ps) s) →
  Order.add_item o n q p w
  = Val tt (set_order o
              (mkOrderDict (Some (i ++ [n])) (Some (qs ++ [q])) (Some (ps ++ [p])) s) w).
Proof.
  intros Hd. unfold Order.add_item.
  rewrite mbind_M, (items_append_own o n w _ i Hd eq_refl).
  rewrite mbind_M.
  erewrite quantities_append_own; [|apply lookup_set_order|reflexivity].
  erewrite prices_append_own; [|apply lookup_set_order|reflexivity].
  by rewrite !set_order_twice.
Qed.

Lemma add_items_own (o : loc) (its : list Item) :
  ∀ (w : World) (i : list string) (qs ps : list Z) (s : option string),
    orders w !! o = Some (mkOrderDict (Some i) (Some qs) (Some ps) s) →
    add_items o its w
    = Val tt (set_order o
                (mkOrderDict (Some (i ++ map name its)) (Some (qs ++ map quantity its))
                             (Some (ps ++ map price its)) s) w).
Proof.
  induction its as [|it its IH]; intros w i qs ps s Hd.
  - cbn. rewrite !app_nil_r. unfold set_order. destruct w. cbn in *.
    by rewrite insert_id.
  - cbn [add_items]. rewrite mbind_M, (add_item_own o _ _ _ w i qs ps s Hd).
    rewrite (IH _ (i ++ [name it]) (qs ++ [quantity it]) (ps ++ [price it]) s)
      by (cbn [set_order orders]; by rewrite lookup_insert_eq).
    rewrite set_order_twice. cbn [map]. by rewrite <- !app_assoc.
Qed.

Lemma TestOrder_setUp_eq (w : World) :
  TestOrder.setUp w
  = Val (fresh (dom (orders w)))
        (set_order (fresh (dom (orders w)))
           (mkOrderDict (Some []) (Some []) (Some []) None) w).
Proof.
  unfold TestOrder.setUp. rewrite mbind_M. unfold Order.new. cbn zeta.
  rewrite mbind_M. erewrite setattr_items_eq; [|apply lookup_set_order].
  rewrite mbind_M. erewrite setattr_quantities_eq; [|apply lookup_set_order].
  rewrite mbind_M. erewrite setattr_prices_eq; [|apply lookup_set_order].
  by rewrite !set_order_twice.
Qed.

(** The [setUp] of [TestOrder] detaches its order from the class lists:
    from any store, whatever the class lists hold, the order it returns is
    new and empty; items added to it are totalled on their own; and the
    class lists and all earlier orders stay as they were. *)
Theorem setUp_isolates_order (w : World) (its : list Item) :
  ∃ o w1 w2,
    TestOrder.setUp w = Val o w1 ∧
    orders w !! o = None ∧
    view o w1 = Val (mkView [] [] [] "open") w1 ∧
    add_items o its w1 = Val tt w2 ∧
    view o w2 = Val (mkView (map name its) (map quantity its) (map price its) "open") w2 ∧
    Order.total_price o w2 = Val (sum_subtotals its) w2 ∧
    Order_items w2 = Order_items w ∧
    Order_quantities w2 = Order_quantities w ∧
    Order_prices w2 = Order_prices w ∧
    ∀ o', o' ≠ o → orders w2 !! o' = orders w !! o'.
Proof.
  eexists _, _, _. split; [apply TestOrder_setUp_eq|].
  split; [apply not_elem_of_dom, is_fresh|].
  split; [rewrite view_eq; cbn [set_order orders]; by rewrite lookup_insert_eq|].
  split.
  { apply add_items_own. cbn [set_order orders]. by rewrite lookup_insert_eq. }
  rewrite set_order_twice. cbn [app].
  split; [rewrite view_eq; cbn [set_order orders]; by rewrite lookup_insert_eq|].
  split.
  { rewrite (total_price_dot _ _ _ (lookup_set_order _ _ _)).
    - f_equal. exact (dot_items its).
    - unfold view_of. simpl. by rewrite !length_map. }
  do 3 (split; [reflexivity|]).
  intros o' Hne. cbn [set_order orders]. by rewrite lookup_insert_ne.
Qed.

(** An order that holds its own three lists is cut off from the others
    in both directions: [add_item] on another order leaves what it shows
    unchanged, and [add_item] on it leaves the class lists, and so every
    order that reads them, unchanged. *)
Theorem own_lists_isolated
    (o o' : loc) (n : string) (q p : Z) (w : World) (d d' : OrderDict) :
  orders w !! o = Some d →
  owns_lists d →
  orders w !! o' = Some d' →
  o' ≠ o →
  (∃ w', Order.add_item o' n q p w = Val tt w' ∧
         view o w' = Val (view_of w d) w') ∧
  (∃ w', Order.add_item o n q p w = Val tt w' ∧
         Order_items w' = Order_items w ∧
         Order_quantities w' = Order_quantities w ∧
         Order_prices w' = Order_prices w ∧
         ∀ o2, o2 ≠ o → orders w' !! o2 = orders w !! o2).
Proof.
  intros Hd ([i Hi] & [qs Hq] & [ps Hp]) Hd' Hne. split.
  - destruct (add_item_frame o' n q p w d' Hd') as (w' & Hr & Hfr & _).
    exists w'. split; [exact Hr|].
    rewrite view_eq, Hfr, Hd by done. f_equal.
    unfold view_of. by rewrite Hi, Hq, Hp.
  - destruct d as [di dq dp s]. cbn in Hi, Hq, Hp. subst.
    eexists. split; [by apply add_item_own|].
    do 3 (split; [reflexivity|]).
    intros o2 Hne2. cbn [set_order orders]. by rewrite lookup_insert_ne.
Qed.

(** *** The test methods of test_solid.py *)

Lemma exec_eq {A} (m : M A) (k : A → Test) (w w' : World) (a : A) :
  m w = Val a w' → exec m k w = k a w'.
Proof. intros H. unfold exec. by rewrite H. Qed.

Lemma assertRaises_eq {A} (m : M A) (k : exn → Test) (w w' : World) (e : exn) :
  m w = Exc e w' → assertRaises m k w = k e w'.
Proof. intros H. unfold assertRaises. by rewrite H. Qed.

Lemma assertEqual_refl {A} `{EqDecision A} (a : A) (k : Test) :
  assertEqual a a k = k.
Proof. unfold assertEqual. by rewrite decide_True. Qed.

Lemma Order_items_lookup (o : loc) (w : World) (d : OrderDict) :
  orders w !! o = Some d → Order.items o w = Val (v_items (view_of w d)) w.
Proof. intros Hd. unfold Order.items. unfold_M. by rewrite Hd. Qed.

Lemma Order_quantities_lookup (o : loc) (w : World) (d : OrderDict) :
  orders w !! o = Some d →
  Order.quantities o w = Val (v_quantities (view_of w d)) w.
Proof. intros Hd. unfold Order.quantities. unfold_M. by rewrite Hd. Qed.

Lemma Order_prices_lookup (o : loc) (w : World) (d : OrderDict) :
  orders w !! o = Some d → Order.prices o w = Val (v_prices (view_of w d)) w.
Proof. intros Hd. unfold Order.prices. unfold_M. by rewrite Hd. Qed.

Lemma Order_status_lookup (o : loc) (w : World) (d : OrderDict) :
  orders w !! o = Some d → Order.status o w = Val (v_status (view_of w d)) w.
Proof. intros Hd. unfold Order.status. unfold_M. by rewrite Hd. Qed.

Lemma total_price_own (o : loc) (w : World) (i : list string) (qs ps : list Z)
    (s : option string) :
  orders w !! o = Some (mkOrderDict (Some i) (Some qs) (Some ps) s) →
  length ps ≤ length qs →
  Order.total_price o w = Val (dot qs ps) w.
Proof. intros Hd Hle. by rewrite (total_price_dot o w _ Hd). Qed.

Ltac side :=
  cbn [paid set_order set_authorizer orders authorizers];
  rewrite ?lookup_insert_eq; first [reflexivity | cbn; lia].

Ltac step_order :=
  erewrite exec_eq;
  [| first [ eapply add_item_own; side
           | eapply total_price_own; side
           | eapply Order_items_lookup; side
           | eapply Order_quantities_lookup; side
           | eapply Order_prices_lookup; side
           | eapply Order_status_lookup; side ] ];
  cbn [app view_of v_items v_quantities v_prices v_status
       d_items d_quantities d_prices d_status dot];
  rewrite ?set_order_twice, ?assertEqual_refl.

(** Every test method of [TestOrder] passes after its [setUp], from any
    store, whatever the class lists hold and whatever orders exist. *)
Theorem TestOrder_passes (w : World) :
  run_test TestOrder.setUp TestOrder.test_add_item_single w = Pass ∧
  run_test TestOrder.setUp TestOrder.test_add_item_multiple w = Pass ∧
  run_test TestOrder.setUp TestOrder.test_total_price_empty w = Pass ∧
  run_test TestOrder.setUp TestOrder.test_total_price_single_item w = Pass ∧
  run_test TestOrder.setUp TestOrder.test_total_price_multiple_items w = Pass ∧
  run_test TestOrder.setUp TestOrder.test_total_price_with_different_quantities w
  = Pass.
Proof.
  unfold run_test. rewrite !(exec_eq _ _ _ _ _ (TestOrder_setUp_eq w)).
  repeat apply conj.
  - unfold TestOrder.test_add_item_single. repeat step_order. reflexivity.
  - unfold TestOrder.test_add_item_multiple. repeat step_order. reflexivity.
  - unfold TestOrder.test_total_price_empty. repeat step_order. reflexivity.
  - unfold TestOrder.test_total_price_single_item. repeat step_order. reflexivity.
  - unfold TestOrder.test_total_price_multiple_items. repeat step_order.
    reflexivity.
  - unfold TestOrder.test_total_price_with_different_quantities.
    repeat step_order. reflexivity.
Qed.

Lemma getattr_authorized_lookup (a : loc) (w : World) (x : AuthObj) :
  authorizers w !! a = Some x → getattr_authorized a w = Val (authorized_of x) w.
Proof. intros Hx. unfold getattr_authorized. unfold_M. by rewrite Hx. Qed.

Lemma is_authorized_lookup (a : loc) (w : World) (x : AuthObj) :
  authorizers w !! a = Some x →
  Authorizer.is_authorized a w = Val (authorized_of x) w.
Proof. intros Hx. by rewrite is_authorized_eq, Hx. Qed.

Lemma set_authorized_lookup (a : loc) (b : bool) (w : World) (x : AuthObj) :
  authorizers w !! a = Some x →
  set_authorized a b w = Val tt (set_authorizer a (mkAuthObj (a_class x) (Some b)) w).
Proof. intros Hx. by rewrite set_authorized_eq, Hx. Qed.

Lemma verify_code_lookup (a : loc) (code : string) (w : World) (x : AuthObj) :
  authorizers w !! a = Some x →
  a_class x = SMSAuthCls →
  Authorizer.verify_code a code w
  = Val tt (mkWorld (Order_items w) (Order_quantities w) (Order_prices w)
              (orders w) (<[a := mkAuthObj SMSAuthCls (Some true)]> (authorizers w))
              (stdout w ++ [("Verifying code: " ++ code)%string])).
Proof.
  intros Hx Hc. unfold Authorizer.verify_code. rewrite mbind_M. unfold auth_obj.
  by rewrite Hx, Hc, verify_code_eq, Hx, Hc.
Qed.

Lemma not_a_robot_lookup (a : loc) (w : World) (x : AuthObj) :
  authorizers w !! a = Some x →
  a_class x = NotARobotCls →
  Authorizer.not_a_robot a w
  = Val tt (mkWorld (Order_items w) (Order_quantities w) (Order_prices w)
              (orders w) (<[a := mkAuthObj NotARobotCls (Some true)]> (authorizers w))
              (stdout w ++ ["Not a robot"%string])).
Proof.
  intros Hx Hc. unfold Authorizer.not_a_robot. rewrite mbind_M. unfold auth_obj.
  by rewrite Hx, Hc, not_a_robot_eq, Hx, Hc.
Qed.

Lemma Credit_pay_lookup (p : CreditPaymentProcessor.t) (o : loc) (w : World)
    (d : OrderDict) :
  orders w !! o = Some d →
  ∃ out, CreditPaymentProcessor.pay p o w = Val tt (paid o d out w).
Proof. intros Hd. rewrite Credit_pay_eq, Hd. eauto. Qed.

Lemma Bitcoin_pay_lookup (p : BitcoinPaymentProcessor.t) (o : loc) (w : World)
    (d : OrderDict) :
  orders w !! o = Some d →
  ∃ out, BitcoinPaymentProcessor.pay p o w = Val tt (paid o d out w).
Proof. intros Hd. rewrite Bitcoin_pay_eq, Hd. eauto. Qed.

Lemma Debit_pay_lookup (p : DebitPaymentProcessor.t) (o : loc) (w : World)
    (x : AuthObj) (d : OrderDict) :
  authorizers w !! DebitPaymentProcessor.auth p = Some x →
  authorized_of x = true →
  orders w !! o = Some d →
  ∃ out, DebitPaymentProcessor.pay p o w = Val tt (paid o d out w).
Proof. intros Hx Hb Hd. rewrite Debit_pay_eq, Hx, Hb, Hd. eauto. Qed.

Lemma Debit_pay_raises (p : DebitPaymentProcessor.t) (o : loc) (w : World)
    (x : AuthObj) :
  authorizers w !! DebitPaymentProcessor.auth p = Some x →
  authorized_of x = false →
  DebitPaymentProcessor.pay p o w = Exc (Exception "Not Authorized") w.
Proof. intros Hx Hb. by rewrite Debit_pay_eq, Hx, Hb. Qed.

Lemma status_after_paid (o : loc) (d : OrderDict) (out : list string) (w : World)
    (k : string → Test) :
  exec (Order.status o) k (paid o d out w) = k "PAID"%string (paid o d out w).
Proof.
  apply exec_eq. unfold Order.status. unfold_M. cbn [paid orders].
  by rewrite lookup_insert_eq.
Qed.

Lemma TestSMSAuth_setUp_eq (w : World) :
  TestSMSAuth.setUp w
  = Val (fresh (dom (authorizers w)))
        (set_authorizer (fresh (dom (authorizers w)))
           (mkAuthObj SMSAuthCls (Some false)) w).
Proof.
  unfold TestSMSAuth.setUp. rewrite mbind_M. unfold SMSAuth.new. cbn zeta.
  rewrite mbind_M. erewrite set_authorized_lookup;
    [|cbn [set_authorizer authorizers]; by rewrite lookup_insert_eq].
  unfold set_authorizer. cbn. by rewrite insert_insert_eq.
Qed.

Lemma TestNotARobot_setUp_eq (w : World) :
  TestNotARobot.setUp w
  = Val (fresh (dom (authorizers w)))
        (set_authorizer (fresh (dom (authorizers w)))
           (mkAuthObj NotARobotCls (Some false)) w).
Proof.
  unfold TestNotARobot.setUp. rewrite mbind_M. unfold NotARobot.new. cbn zeta.
  rewrite mbind_M. erewrite set_authorized_lookup;
    [|cbn [set_authorizer authorizers]; by rewrite lookup_insert_eq].
  unfold set_authorizer. cbn. by rewrite insert_insert_eq.
Qed.

Lemma payment_setUp_eq (w : World) :
  payment_setUp w
  = Val (fresh (dom (orders w)))
        (set_order (fresh (dom (orders w)))
           (mkOrderDict (Some ["Test Item"%string]) (Some [1%Z]) (Some [100%Z])
                        (Some "open"%string)) w).
Proof.
  unfold payment_setUp. rewrite mbind_M. unfold Order.new. cbn zeta.
  rewrite mbind_M. erewrite setattr_items_eq; [|apply lookup_set_order].
  rewrite mbind_M. erewrite setattr_quantities_eq; [|apply lookup_set_order].
  rewrite mbind_M. erewrite setattr_prices_eq; [|apply lookup_set_order].
  rewrite mbind_M. erewrite set_status_eq; [|apply lookup_set_order].
  rewrite !set_order_twice, mbind_M.
  erewrite add_item_own; [|apply lookup_set_order].
  by rewrite set_order_twice.
Qed.

Lemma authorized_of_Some (c : AuthClass) (b : bool) :
  authorized_of (mkAuthObj c (Some b)) = b.
Proof. reflexivity. Qed.

Ltac auth_side :=
  cbn [paid set_order set_authorizer orders authorizers
       DebitPaymentProcessor.auth a_class];
  rewrite ?lookup_insert_eq; reflexivity.

Ltac step_auth :=
  erewrite exec_eq;
  [| first [ eapply getattr_authorized_lookup; auth_side
           | eapply is_authorized_lookup; auth_side
           | eapply verify_code_lookup; auth_side
           | eapply not_a_robot_lookup; auth_side ] ];
  rewrite ?authorized_of_Some; cbn [assertTrue assertFalse].

(** Every test method of [TestSMSAuth] and of [TestNotARobot] passes
    after its [setUp], from any store. *)
Theorem TestAuthorizers_pass (w : World) :
  (run_test TestSMSAuth.setUp
     TestSMSAuth.test_verify_code_sets_authorized_true w = Pass ∧
   run_test TestSMSAuth.setUp
     TestSMSAuth.test_is_authorized_returns_false_initially w = Pass ∧
   run_test TestSMSAuth.setUp
     TestSMSAuth.test_is_authorized_returns_true_after_verification w = Pass ∧
   run_test TestSMSAuth.setUp
     TestSMSAuth.test_is_authorized_returns_correct_status w = Pass) ∧
  (run_test TestNotARobot.setUp
     TestNotARobot.test_not_a_robot_sets_authorized_true w = Pass ∧
   run_test TestNotARobot.setUp
     TestNotARobot.test_is_authorized_returns_false_initially w = Pass ∧
   run_test TestNotARobot.setUp
     TestNotARobot.test_is_authorized_returns_true_after_not_a_robot w = Pass ∧
   run_test TestNotARobot.setUp
     TestNotARobot.test_is_authorized_returns_correct_status w = Pass).
Proof.
  unfold run_test.
  rewrite !(exec_eq _ _ _ _ _ (TestSMSAuth_setUp_eq w)).
  rewrite !(exec_eq _ _ _ _ _ (TestNotARobot_setUp_eq w)).
  repeat apply conj.
  - unfold TestSMSAuth.test_verify_code_sets_authorized_true.
    repeat step_auth. reflexivity.
  - unfold TestSMSAuth.test_is_authorized_returns_false_initially.
    repeat step_auth. reflexivity.
  - unfold TestSMSAuth.test_is_authorized_returns_true_after_verification.
    repeat step_auth. reflexivity.
  - unfold TestSMSAuth.test_is_authorized_returns_correct_status.
    repeat step_auth. reflexivity.
  - unfold TestNotARobot.test_not_a_robot_sets_authorized_true.
    repeat step_auth. reflexivity.
  - unfold TestNotARobot.test_is_authorized_returns_false_initially.
    repeat step_auth. reflexivity.
  - unfold TestNotARobot.test_is_authorized_returns_true_after_not_a_robot.
    repeat step_auth. reflexivity.
  - unfold TestNotARobot.test_is_authorized_returns_correct_status.
    repeat step_auth. reflexivity.
Qed.

Ltac step_new := erewrite exec_eq; [|reflexivity]; cbn beta zeta.

Ltac step_pay :=
  cbn beta zeta;
  match goal with
  | |- exec (CreditPaymentProcessor.pay ?p ?o) _ ?W = _ =>
      let out := fresh "out" in
      let Hp := fresh "Hp" in
      edestruct (Credit_pay_lookup p o W) as [out Hp];
      [auth_side | rewrite (exec_eq _ _ _ _ _ Hp)]
  | |- exec (BitcoinPaymentProcessor.pay ?p ?o) _ ?W = _ =>
      let out := fresh "out" in
      let Hp := fresh "Hp" in
      edestruct (Bitcoin_pay_lookup p o W) as [out Hp];
      [auth_side | rewrite (exec_eq _ _ _ _ _ Hp)]
  | |- exec (DebitPaymentProcessor.pay ?p ?o) _ ?W = _ =>
      let out := fresh "out" in
      let Hp := fresh "Hp" in
      edestruct (Debit_pay_lookup p o W) as [out Hp];
      [auth_side | reflexivity | auth_side | rewrite (exec_eq _ _ _ _ _ Hp)]
  end;
  rewrite status_after_paid, assertEqual_refl.

Ltac step_raises :=
  cbn beta zeta;
  erewrite assertRaises_eq;
  [| eapply Debit_pay_raises; [auth_side | reflexivity] ];
  cbn [str]; rewrite assertEqual_refl.

(** Every test method of the three payment test classes passes after its
    [setUp], from any store: credit and bitcoin payments and debit
    payments through a verified authorizer leave status "PAID", and a
    debit payment through a new authorizer raises "Not Authorized". *)
Theorem TestPayments_pass (w : World) :
  (run_test TestCreditPaymentProcessor.setUp
     TestCreditPaymentProcessor.test_pay_sets_order_status_to_paid w = Pass ∧
   run_test TestCreditPaymentProcessor.setUp
     TestCreditPaymentProcessor.test_stores_security_code w = Pass) ∧
  (run_test TestDebitPaymentProcessor.setUp
     TestDebitPaymentProcessor.test_pay_with_authorized_sms_auth_succeeds w = Pass ∧
   run_test TestDebitPaymentProcessor.setUp
     TestDebitPaymentProcessor.test_pay_without_authorization_raises_exception w
   = Pass ∧
   run_test TestDebitPaymentProcessor.setUp
     TestDebitPaymentProcessor.test_works_with_not_a_robot_authorizer w = Pass ∧
   run_test TestDebitPaymentProcessor.setUp
     TestDebitPaymentProcessor.test_not_a_robot_unauthorized_raises_exception w
   = Pass) ∧
  (run_test TestBitcoinPaymentProcessor.setUp
     TestBitcoinPaymentProcessor.test_pay_sets_order_status_to_paid w = Pass ∧
   run_test TestBitcoinPaymentProcessor.setUp
     TestBitcoinPaymentProcessor.test_stores_wallet_id w = Pass).
Proof.
  unfold run_test, TestCreditPaymentProcessor.setUp,
    TestDebitPaymentProcessor.setUp, TestBitcoinPaymentProcessor.setUp.
  rewrite !(exec_eq _ _ _ _ _ (payment_setUp_eq w)).
  repeat apply conj.
  - unfold TestCreditPaymentProcessor.test_pay_sets_order_status_to_paid.
    step_pay. reflexivity.
  - reflexivity.
  - unfold TestDebitPaymentProcessor.test_pay_with_authorized_sms_auth_succeeds.
    step_new. step_auth. step_pay. reflexivity.
  - unfold TestDebitPaymentProcessor.test_pay_without_authorization_raises_exception.
    step_new. step_raises. reflexivity.
  - unfold TestDebitPaymentProcessor.test_works_with_not_a_robot_authorizer.
    step_new. step_auth. step_pay. reflexivity.
  - unfold TestDebitPaymentProcessor.test_not_a_robot_unauthorized_raises_exception.
    step_new. step_raises. reflexivity.
  - unfold TestBitcoinPaymentProcessor.test_pay_sets_order_status_to_paid.
    step_pay. reflexivity.
  - reflexivity.
Qed.

(** * The further properties at concrete stores *)

Lemma total_price_by_lengths_witness :
  (length [50%Z] ≤ length (@nil Z) →
   Order.total_price 0 lopsided
   = Val (dot (take (length [50%Z]) []) [50%Z]) lopsided) ∧
  (length (@nil Z) < length [50%Z] →
   Order.total_price 0 lopsided = Exc IndexError lopsided).
Proof.
  apply (total_price_by_lengths 0 lopsided (mkView [] [] [50%Z] "open")).
  vm_compute; reflexivity.
Defined.

Lemma pay_keeps_totals_witness :
  let w := set_Order_prices [50%Z]
             (set_Order_quantities [1%Z] (set_Order_items ["Keyboard"%string] shop)) in
  let w' := paid 0 (mkOrderDict None None None None)
              ["Processing credit payment type"%string;
               "Verifying security code: 1234"%string] w in
  result (Order.total_price 0 w') = result (Order.total_price 0 w).
Proof.
  apply (pay_keeps_totals (Credit (CreditPaymentProcessor.init "1234")) 0 0).
  vm_compute; reflexivity.
Defined.

Lemma pay_twice_witness :
  let w1 := paid 0 (mkOrderDict None None None None)
              ["Processing credit payment type"%string;
               "Verifying security code: 1234"%string] shop in
  ∃ w3, pay (Bitcoin (BitcoinPaymentProcessor.init "wallet123")) 0 w1 = Val tt w3 ∧
        quiet w3 = quiet w1 ∧
        the (view 0 w3) = the (view 0 w1).
Proof.
  apply (pay_twice (Credit (CreditPaymentProcessor.init "1234"))
           (Bitcoin (BitcoinPaymentProcessor.init "wallet123")) 0 shop _
           (paid 0 (mkOrderDict None None None None)
              ["Processing bitcoin payment type"%string;
               "Verifying security code: wallet123"%string] shop));
    vm_compute; reflexivity.
Defined.

Lemma total_price_any_order_witness :
  ∃ total,
    result ((add_items 0 [mkItem "Mouse" 3 25; mkItem "Monitor" 2 200];;
             Order.total_price 0) shop) = Some (inl total) ∧
    result ((add_items 0 [mkItem "Monitor" 2 200; mkItem "Mouse" 3 25];;
             Order.total_price 0) shop) = Some (inl total).
Proof.
  apply (total_price_any_order 0 shop (mkView [] [] [] "open")).
  - vm_compute; reflexivity.
  - split; reflexivity.
  - apply perm_swap.
Defined.

Lemma reachable_total_price_witness :
  let w := set_order 1 (mkOrderDict None None None None)
             (set_order 0 (mkOrderDict None None None None)
                (mkWorld ["Keyboard"%string; "SSD"%string] [1; 1]%Z [50; 150]%Z
                         ∅ ∅ [])) in
  Order.total_price 1 w = Val (dot (Order_quantities w) (Order_prices w)) w ∧
  length (Order_items w) = length (Order_prices w) ∧
  ["Keyboard"%string; "SSD"%string] = Order_items w.
Proof.
  intros w.
  apply (reachable_total_price two_customers w 1
           (mkView ["Keyboard"%string; "SSD"%string] [1; 1]%Z [50; 150]%Z "open"));
    vm_compute; reflexivity.
Defined.

Lemma unauthorized_until_verified_witness :
  match run others_verified shop with
  | Some w' =>
      Authorizer.is_authorized 0 w' = Val false w' ∧
      ∀ code o,
        DebitPaymentProcessor.pay (DebitPaymentProcessor.init code 0) o w'
        = Exc (Exception "Not Authorized") w'
  | None => False
  end.
Proof.
  destruct (run others_verified shop) as [w'|] eqn:Hrun.
  - apply (unauthorized_until_verified others_verified shop w' 0).
    + vm_compute; reflexivity.
    + repeat (apply Forall_cons; split; [cbn; first [tauto | lia]|]).
      apply Forall_nil_2.
    + exact Hrun.
  - vm_compute in Hrun. discriminate.
Defined.

Lemma verify_then_pay_witness :
  ∃ w',
    (Authorizer.not_a_robot 1;;
     DebitPaymentProcessor.pay (DebitPaymentProcessor.init "9876" 1) 0) shop
    = Val tt w' ∧
    the (view 0 w') = Some (mkView [] [] [] "PAID").
Proof.
  apply (verify_then_pay 1 0 shop (mkAuthObj NotARobotCls None)
           (mkView [] [] [] "open") "123456" "9876");
    vm_compute; reflexivity.
Defined.

Lemma own_lists_isolated_witness :
  (∃ w', Order.add_item 0 "SSD" 1 150 two_orders = Val tt w' ∧
         view 1 w' = Val (mkView [] [] [] "open") w') ∧
  (∃ w', Order.add_item 1 "SSD" 1 150 two_orders = Val tt w' ∧
         Order_items w' = Order_items two_orders ∧
         Order_quantities w' = Order_quantities two_orders ∧
         Order_prices w' = Order_prices two_orders ∧
         ∀ o2, o2 ≠ 1 → orders w' !! o2 = orders two_orders !! o2).
Proof.
  apply (own_lists_isolated 1 0 "SSD" 1 150 two_orders
           (mkOrderDict (Some []) (Some []) (Some []) None)
           (mkOrderDict None None None None)).
  - vm_compute; reflexivity.
  - repeat split; eexists; reflexivity.
  - vm_compute; reflexivity.
  - lia.
Defined.
